(** * Sincera data processor: rate limiter, retrying fetch and batch loop

    A shallow embedding of [sincera_data_processor.py].  The three parts of
    the script that carry behaviour are embedded function by function:

    - [RateLimiter] ([wait_if_needed], [record_request]);
    - [fetch_publisher_metadata], with its retry loop;
    - the row loop of [process_excel_file].

    Python values are an inductive type, exceptions are an explicit result,
    and everything the script does to the outside world (printing, sleeping,
    HTTP requests) is recorded as a chronological list of events.  The
    network and the monotonic clock are oracles handed to the functions. *)

From Stdlib Require Import ZArith QArith List String Ascii Bool Lia Lqa.
From Stdlib Require Sorting.Sorted.
Import ListNotations.
Open Scope string_scope.
Open Scope list_scope.
Open Scope Z_scope.
Set Warnings "-register-all".

(* ===================================================================== *)
(** ** Python values *)
(* ===================================================================== *)

(** A binary float: not-a-number, an infinity, or the finite value
    [m * 2^e]. *)
Inductive pyfloat : Type :=
| FNaN
| FInf (negative : bool)
| FFin (m e : Z).

Inductive pyval : Type :=
| PNone
| PBool (b : bool)
| PInt (n : Z)
| PFloat (f : pyfloat)
| PStr (s : string)
| PList (l : list pyval)
| PDict (d : list (string * pyval)).

(** The exception classes that the script can meet. [RequestException]
    stands for [requests.exceptions.RequestException] and its subclasses. *)
Inductive exn : Type :=
| ValueError
| TypeError
| OverflowError
| AttributeError
| IndexError
| RequestException.

Inductive pyresult (A : Type) : Type :=
| Ok (a : A)
| Raise (e : exn).
Arguments Ok {A} a.
Arguments Raise {A} e.

Definition exn_eqb (a b : exn) : bool :=
  match a, b with
  | ValueError, ValueError | TypeError, TypeError
  | OverflowError, OverflowError | AttributeError, AttributeError
  | IndexError, IndexError | RequestException, RequestException => true
  | _, _ => false
  end.

(** [bool(v)]: the truth value used by [if identifier:]. *)
Definition py_truthy (v : pyval) : bool :=
  match v with
  | PNone => false
  | PBool b => b
  | PInt n => negb (n =? 0)
  | PFloat (FFin m _) => negb (m =? 0)
  | PFloat _ => true
  | PStr s => negb (s =? EmptyString)%string
  | PList l => match l with [] => false | _ => true end
  | PDict d => match d with [] => false | _ => true end
  end.

(** *** [int(x)] *)

(** ASCII white space as [int] skips it around a literal. *)
Definition is_space (c : ascii) : bool :=
  let n := nat_of_ascii c in
  ((9 <=? n) && (n <=? 13) || (n =? 32))%nat.

Definition is_digit (c : ascii) : bool :=
  let n := nat_of_ascii c in
  ((48 <=? n) && (n <=? 57))%nat.

Definition digit_val (c : ascii) : Z := Z.of_nat (nat_of_ascii c) - 48.

Fixpoint drop_space (l : list ascii) : list ascii :=
  match l with
  | c :: l' => if is_space c then drop_space l' else l
  | [] => []
  end.

(** Decimal digits, with single underscores allowed between two digits.
    [after_digit] says whether the previous character was a digit. *)
Fixpoint parse_digits (acc : Z) (after_digit : bool) (l : list ascii)
  : option Z :=
  match l with
  | [] => if after_digit then Some acc else None
  | c :: l' =>
      if is_digit c then parse_digits (10 * acc + digit_val c) true l'
      else if (Ascii.eqb c "_" && after_digit)%bool
           then parse_digits acc false l'
           else None
  end.

(** [int(s)] for a string, base ten: surrounding white space, an optional
    sign, digits.  [None] is [ValueError].  Only the ASCII part of the
    grammar is covered: a string with a non-ASCII digit is rejected here. *)
Definition int_of_str (s : string) : option Z :=
  let l := rev (drop_space (rev (drop_space (list_ascii_of_string s)))) in
  match l with
  | "+"%char :: r => parse_digits 0 false r
  | "-"%char :: r => option_map Z.opp (parse_digits 0 false r)
  | _ => parse_digits 0 false l
  end.

(** [int(f)] for a float truncates towards zero; it raises [ValueError] on
    a NaN and [OverflowError] on an infinity. *)
Definition int_of_float (f : pyfloat) : pyresult Z :=
  match f with
  | FNaN => Raise ValueError
  | FInf _ => Raise OverflowError
  | FFin m e => Ok (if 0 <=? e then m * 2 ^ e else Z.quot m (2 ^ (- e)))
  end.

Definition py_int (v : pyval) : pyresult Z :=
  match v with
  | PNone => Raise TypeError
  | PBool b => Ok (if b then 1 else 0)
  | PInt n => Ok n
  | PFloat f => int_of_float f
  | PStr s => match int_of_str s with
              | Some n => Ok n
              | None => Raise ValueError
              end
  | PList _ | PDict _ => Raise TypeError
  end.

(** [sep.join(l)]: every element has to be a string. *)
Fixpoint py_join (sep : string) (l : list pyval) : pyresult string :=
  match l with
  | [] => Ok EmptyString
  | PStr s :: l' =>
      match l' with
      | [] => Ok s
      | _ => match py_join sep l' with
             | Ok r => Ok (String.append s (String.append sep r))
             | Raise e => Raise e
             end
      end
  | _ :: _ => Raise TypeError
  end.

(** [pd.notna(v)] on a scalar. *)
Definition pd_notna (v : pyval) : bool :=
  match v with
  | PNone => false
  | PFloat FNaN => false
  | _ => true
  end.

(** *** Dictionaries with string keys, in insertion order *)

Definition dict : Type := list (string * pyval).

Fixpoint dict_get (d : dict) (k : string) : pyval :=
  match d with
  | [] => PNone
  | (k', v) :: d' => if (k' =? k)%string then v else dict_get d' k
  end.

(** [d[k] = v]: an existing key keeps its place, a new one goes last. *)
Fixpoint dict_set (d : dict) (k : string) (v : pyval) : dict :=
  match d with
  | [] => [(k, v)]
  | (k', v') :: d' =>
      if (k' =? k)%string then (k', v) :: d' else (k', v') :: dict_set d' k v
  end.

(* ===================================================================== *)
(** ** Configuration *)
(* ===================================================================== *)

Definition FIELDS : list string :=
  [ "publisher_id"; "name"; "visit_enabled"; "status"; "primary_supply_type";
    "pub_description"; "categories"; "slug"; "avg_ads_to_content_ratio";
    "avg_ads_in_view"; "avg_ad_refresh"; "total_unique_gpids";
    "id_absorption_rate"; "avg_page_weight"; "avg_cpu"; "total_supply_paths";
    "reseller_count"; "owner_domain"; "updated_at" ].

Definition DEFAULT_RETRY_DELAY : Z := 2.
Definition MAX_RETRIES : nat := 3.
Definition RATE_LIMIT_COUNT : Z := 45.
Definition RATE_LIMIT_PERIOD : Q := 60.

(** [{field: None for field in FIELDS}] *)
Definition all_null : dict := map (fun field => (field, PNone)) FIELDS.

(* ===================================================================== *)
(** ** Effects: events, exceptions *)
(* ===================================================================== *)

(** What a request is addressed to.  [TId n] is the URL
    [API_URL_ID_BASE + str(n)], [TDomain v] is [API_URL_DOMAIN_BASE + str(v)]. *)
Inductive target : Type :=
| TId (n : Z)
| TDomain (v : pyval).

(** The lines the script prints, one constructor per [print] call.
    Durations and clock readings are in seconds, as exact rationals. *)
Inductive message : Type :=
| MsgRateLimitWait (time_to_wait : Q)
| MsgInvalidId (identifier : pyval)
| MsgInvalidType (id_type : string)
| MsgEmptyList (t : target)
| MsgRateLimited (t : target) (retry_after : Z) (attempt : nat)
| MsgFailed (t : target) (status : Z) (text : string)
| MsgError (t : target)
| MsgRetrying (attempt : nat)
| MsgGaveUp (t : target)
| MsgReadOk (rows : nat)
| MsgReadFailed
| MsgNoColumns
| MsgProcessing (index : nat) (selected : option (pyval * string))
| MsgSkipping (index : nat).

Inductive event : Type :=
| Log (m : message)
| Sleep (seconds : Q)
| Get (t : target).

(** A computation that emits events in order and ends with a value or an
    uncaught exception. *)
Definition io (A : Type) : Type := (list event * pyresult A)%type.

Definition ret {A} (a : A) : io A := ([], Ok a).

Definition raise {A} (e : exn) : io A := ([], Raise e).

Definition emit (ev : event) : io unit := ([ev], Ok tt).

Definition lift {A} (r : pyresult A) : io A := ([], r).

Definition bind {A B} (m : io A) (f : A -> io B) : io B :=
  match m with
  | (evs, Ok a) => let (evs', r) := f a in (evs ++ evs', r)
  | (evs, Raise e) => (evs, Raise e)
  end.

(** [try: m  except cls: handler], for one exception class. *)
Definition catch {A} (m : io A) (cls : exn) (handler : io A) : io A :=
  match m with
  | (evs, Raise e) =>
      if exn_eqb e cls
      then let (evs', r) := handler in (evs ++ evs', r)
      else (evs, Raise e)
  | _ => m
  end.

Notation "x <- m ;; k" := (bind m (fun x => k))
  (at level 61, m at next level, right associativity).
Notation "m ;;; k" := (bind m (fun _ => k))
  (at level 61, right associativity).

Definition events {A} (m : io A) : list event := fst m.
Definition outcome {A} (m : io A) : pyresult A := snd m.

(** [time.sleep(d)] refuses a negative duration.  It also refuses a
    duration too long for the platform timer; where that starts depends on
    the platform and on the clock (on Linux, about 9.2e9 seconds from
    boot), and it is not modelled: a statement about a sleep whose length
    comes from outside bounds it by [SLEEP_LIMIT] below. *)
Definition time_sleep (d : Q) : io unit :=
  if Qle_bool 0 d then emit (Sleep d) else raise ValueError.

(** A thousand million seconds: a length well inside what [time.sleep]
    takes. *)
Definition SLEEP_LIMIT : Z := 1000000000.

(** Total time asked of [time.sleep] in a list of events. *)
Fixpoint slept (evs : list event) : Q :=
  match evs with
  | [] => 0
  | Sleep d :: evs' => d + slept evs'
  | _ :: evs' => slept evs'
  end.

(** The targets of the requests sent, in order. *)
Fixpoint requests_of (evs : list event) : list target :=
  match evs with
  | [] => []
  | Get t :: evs' => t :: requests_of evs'
  | _ :: evs' => requests_of evs'
  end.

(* ===================================================================== *)
(** ** RateLimiter *)
(* ===================================================================== *)

(** Readings of [time.monotonic] and [period_seconds] are seconds, taken
    as exact rationals: float rounding is not part of the model. *)
Record RateLimiter : Type := mkRateLimiter {
  max_requests : Z;
  period_seconds : Q;
  request_timestamps : list Q
}.

(** [RateLimiter(max_requests, period_seconds)] *)
Definition new_limiter (max_requests : Z) (period_seconds : Q) : RateLimiter :=
  mkRateLimiter max_requests period_seconds [].

(** The [while] loop of [wait_if_needed]: pop from the left while the
    leftmost timestamp is at or before [bound]. *)
Fixpoint evict (bound : Q) (q : list Q) : list Q :=
  match q with
  | t :: q' => if Qle_bool t bound then evict bound q' else q
  | [] => []
  end.

(** [wait_if_needed], with [current_time] the reading of the clock it
    takes on entry. *)
Definition wait_if_needed (current_time : Q) (self : RateLimiter)
  : io RateLimiter :=
  let q := evict (current_time - period_seconds self)
                 (request_timestamps self) in
  let self' := mkRateLimiter (max_requests self) (period_seconds self) q in
  if (max_requests self <=? Z.of_nat (List.length q))%Z then
    match q with
    | [] => raise IndexError
    | oldest :: _ =>
        let time_to_wait := (oldest - (current_time - period_seconds self))%Q in
        if negb (Qle_bool time_to_wait 0) then
          emit (Log (MsgRateLimitWait time_to_wait)) ;;;
          time_sleep time_to_wait ;;;
          ret self'
        else ret self'
    end
  else ret self'.

(** [record_request], with [now] the reading of the clock it takes. *)
Definition record_request (now : Q) (self : RateLimiter) : RateLimiter :=
  mkRateLimiter (max_requests self) (period_seconds self)
                (request_timestamps self ++ [now]).

(* ===================================================================== *)
(** ** fetch_publisher_metadata *)
(* ===================================================================== *)

(** What the script reads of a [requests.Response]: the status code, the
    value of the [Retry-After] header if the header is there, what
    [response.json()] returns or raises, and [response.text]. *)
Record response : Type := mkResponse {
  status_code : Z;
  retry_after_header : option string;
  json : pyresult pyval;
  text : string
}.

(** What one call of [requests.get] does: it raises a
    [RequestException], or it returns a response. *)
Inductive net_outcome : Type :=
| NetError
| NetResponse (r : response).

(** The first [if]/[elif]/[else] of the function: a target to request, a
    warning and an all-null record, or an exception that escapes. *)
Inductive resolution : Type :=
| Resolved (t : target)
| Skipped (warning : message)
| Escapes (e : exn).

Definition resolve (identifier : pyval) (id_type : string) : resolution :=
  if (id_type =? "id")%string then
    match py_int identifier with
    | Ok n => Resolved (TId n)
    | Raise ValueError | Raise TypeError => Skipped (MsgInvalidId identifier)
    | Raise e => Escapes e
    end
  else if (id_type =? "domain")%string then Resolved (TDomain identifier)
  else Skipped (MsgInvalidType id_type).

(** [{field: data.get(field, None) for field in FIELDS}]: [data] has a
    [get] method only when it is a dict. *)
Definition project (data : pyval) : pyresult dict :=
  match data with
  | PDict d => Ok (map (fun field => (field, dict_get d field)) FIELDS)
  | _ => Raise AttributeError
  end.

(** The [categories] step: a list is replaced by its elements joined. *)
Definition join_categories (result : dict) : pyresult dict :=
  match dict_get result "categories" with
  | PList l =>
      match py_join "; " l with
      | Ok s => Ok (dict_set result "categories" (PStr s))
      | Raise e => Raise e
      end
  | _ => Ok result
  end.

(** [response.headers.get('Retry-After', DEFAULT_RETRY_DELAY)] *)
Definition retry_after_of (r : response) : pyval :=
  match retry_after_header r with
  | Some s => PStr s
  | None => PInt DEFAULT_RETRY_DELAY
  end.

(** The body of the [try] for one attempt.  [Some result] is a [return],
    [None] falls through to the next turn of the loop. *)
Definition attempt_body (net : nat -> net_outcome) (t : target)
  (attempt : nat) : io (option dict) :=
  emit (Get t) ;;;
  match net attempt with
  | NetError => raise RequestException
  | NetResponse response =>
      if (status_code response =? 200)%Z then
        data <- lift (json response) ;;
        match data with
        | PList [] => emit (Log (MsgEmptyList t)) ;;; ret (Some all_null)
        | _ =>
            let data := match data with
                        | PList (first :: _) => first
                        | _ => data
                        end in
            result <- lift (project data) ;;
            result <- lift (join_categories result) ;;
            ret (Some result)
        end
      else if (status_code response =? 429)%Z then
        retry_after <- lift (py_int (retry_after_of response)) ;;
        emit (Log (MsgRateLimited t retry_after attempt)) ;;;
        time_sleep (inject_Z retry_after) ;;;
        ret None
      else
        emit (Log (MsgFailed t (status_code response) (text response))) ;;;
        ret (Some all_null)
  end.

(** One turn of the loop: the [try] with its [except RequestException]. *)
Definition attempt_once (net : nat -> net_outcome) (t : target)
  (attempt : nat) : io (option dict) :=
  catch (attempt_body net t attempt) RequestException
    (emit (Log (MsgError t)) ;;;
     if (attempt <? MAX_RETRIES - 1)%nat then
       emit (Log (MsgRetrying attempt)) ;;;
       time_sleep (inject_Z DEFAULT_RETRY_DELAY) ;;;
       ret None
     else
       emit (Log (MsgGaveUp t)) ;;;
       ret (Some all_null)).

(** [for attempt in todo: ...], then the final [return] of the function. *)
Fixpoint attempts (net : nat -> net_outcome) (t : target) (todo : list nat)
  : io dict :=
  match todo with
  | [] => ret all_null
  | attempt :: rest =>
      r <- attempt_once net t attempt ;;
      match r with
      | Some result => ret result
      | None => attempts net t rest
      end
  end.

(** [net k] is what the [k]-th call of [requests.get] of this call does. *)
Definition fetch_publisher_metadata (net : nat -> net_outcome)
  (identifier : pyval) (id_type : string) : io dict :=
  match resolve identifier id_type with
  | Resolved t => attempts net t (seq 0 MAX_RETRIES)
  | Skipped warning => emit (Log warning) ;;; ret all_null
  | Escapes e => raise e
  end.

(* ===================================================================== *)
(** ** process_excel_file *)
(* ===================================================================== *)

(** A cell of the sheet as [pd.read_excel] hands it over: a scalar.  An
    empty cell is the float NaN; with the defaults of [pd.read_excel] so
    is a cell that holds the empty string. *)
Inductive cell : Type :=
| CBool (b : bool)
| CInt (n : Z)
| CFloat (f : pyfloat)
| CStr (s : string).

Definition cell_val (c : cell) : pyval :=
  match c with
  | CBool b => PBool b
  | CInt n => PInt n
  | CFloat f => PFloat f
  | CStr s => PStr s
  end.

Definition empty_cell : cell := CFloat FNaN.

(** The two columns the script looks at.  A field of a row is meaningful
    only when the frame has the column. *)
Record row : Type := mkRow {
  publisher_id : cell;
  domain : cell
}.

Record frame : Type := mkFrame {
  has_pub_id : bool;
  has_domain : bool;
  rows : list row
}.

(** [row.get('publisher_id')] and [row.get('domain')]: [None] when the
    column does not exist. *)
Definition get_publisher_id (df : frame) (r : row) : pyval :=
  if has_pub_id df then cell_val (publisher_id r) else PNone.

Definition get_domain (df : frame) (r : row) : pyval :=
  if has_domain df then cell_val (domain r) else PNone.

(** "Determine identifier and type": [None] is the initial
    [(None, None)] left untouched. *)
Definition select (df : frame) (r : row) : option (pyval * string) :=
  if has_domain df && pd_notna (get_domain df r)
  then Some (cell_val (domain r), "domain")
  else if has_pub_id df && pd_notna (get_publisher_id df r)
  then Some (cell_val (publisher_id r), "id")
  else None.

(** "Preserve original identifiers" *)
Definition passthrough (df : frame) (r : row) (result : dict) : dict :=
  let result := if has_pub_id df
                then dict_set result "input_publisher_id" (get_publisher_id df r)
                else result in
  if has_domain df
  then dict_set result "input_domain" (get_domain df r)
  else result.

(** The state carried round the row loop: how many times the clock has
    been read, the limiter, the records collected. *)
Record loop_state : Type := mkLoop {
  reads : nat;
  rate_limiter : RateLimiter;
  results : list dict
}.

(** One turn of [for index, row in df.iterrows()].  [clock k] is the
    [k]-th reading of [time.monotonic]; [net index k] is the [k]-th
    [requests.get] made for this row. *)
Definition process_row (clock : nat -> Q) (net : nat -> nat -> net_outcome)
  (df : frame) (index : nat) (r : row) (s : loop_state) : io loop_state :=
  limiter <- wait_if_needed (clock (reads s)) (rate_limiter s) ;;
  let selected := select df r in
  emit (Log (MsgProcessing index selected)) ;;;
  let skip :=
    emit (Log (MsgSkipping index)) ;;;
    ret (S (reads s), limiter, all_null) in
  fetched <- match selected with
             | Some (identifier, id_type) =>
                 if py_truthy identifier then
                   let limiter := record_request (clock (S (reads s))) limiter in
                   result <- fetch_publisher_metadata (net index)
                                                      identifier id_type ;;
                   ret (S (S (reads s)), limiter, result)
                 else skip
             | None => skip
             end ;;
  let '(reads', limiter, result) := fetched in
  ret (mkLoop reads' limiter (results s ++ [passthrough df r result])).

Fixpoint process_rows (clock : nat -> Q) (net : nat -> nat -> net_outcome)
  (df : frame) (index : nat) (todo : list row) (s : loop_state)
  : io loop_state :=
  match todo with
  | [] => ret s
  | r :: rest =>
      s' <- process_row clock net df index r s ;;
      process_rows clock net df (S index) rest s'
  end.

Definition initial_state : loop_state :=
  mkLoop 0 (new_limiter RATE_LIMIT_COUNT RATE_LIMIT_PERIOD) [].

(** [input] is what [pd.read_excel] gives: [None] when it raises.  The
    value is the list handed to [pd.DataFrame(results)] for writing, or
    [None] when the function returns before the loop. *)
Definition process_excel_file (clock : nat -> Q)
  (net : nat -> nat -> net_outcome) (input : option frame)
  : io (option (list dict)) :=
  match input with
  | None => emit (Log MsgReadFailed) ;;; ret None
  | Some df =>
      emit (Log (MsgReadOk (List.length (rows df)))) ;;;
      if negb (has_pub_id df) && negb (has_domain df) then
        emit (Log MsgNoColumns) ;;; ret None
      else
        s <- process_rows clock net df 0 (rows df) initial_state ;;
        ret (Some (results s))
  end.

(* ===================================================================== *)
(** ** Runs of the limiter *)
(* ===================================================================== *)

(** A limiter in use.  [rs_clock] is a bound below every later reading
    of the clock; [rs_recorded] keeps every timestamp ever recorded,
    oldest first, also those the limiter has dropped; [rs_ready] holds
    between a [wait_if_needed] and the [record_request] that follows it. *)
Record run_state : Type := mkRun {
  rs_limiter : RateLimiter;
  rs_clock : Q;
  rs_recorded : list Q;
  rs_ready : bool
}.

(** The calls a client makes.  The clock never goes back, and a sleep
    lasts at least as long as asked.  [record_request] is called only
    straight after a [wait_if_needed] that returned, as the row loop does;
    a wait need not be followed by a record. *)
Inductive step : run_state -> run_state -> Prop :=
| step_wait (s : run_state) (now : Q) (evs : list event)
            (limiter : RateLimiter) :
    (rs_clock s <= now)%Q ->
    wait_if_needed now (rs_limiter s) = (evs, Ok limiter) ->
    step s (mkRun limiter (now + slept evs)%Q (rs_recorded s) true)
| step_record (s : run_state) (now : Q) :
    (rs_clock s <= now)%Q ->
    rs_ready s = true ->
    step s (mkRun (record_request now (rs_limiter s)) now
                  (rs_recorded s ++ [now]) false).

Definition start (max_requests : Z) (period_seconds start_time : Q)
  : run_state :=
  mkRun (new_limiter max_requests period_seconds) start_time [] false.

Inductive reachable (max_requests : Z) (period_seconds : Q)
  : run_state -> Prop :=
| reach_start (start_time : Q) :
    reachable max_requests period_seconds
              (start max_requests period_seconds start_time)
| reach_step (s s' : run_state) :
    reachable max_requests period_seconds s ->
    step s s' ->
    reachable max_requests period_seconds s'.

(** A timestamp [t] is inside the trailing window at [now] when its age
    [now - t] is strictly less than the period. *)
Definition in_window (period now t : Q) : bool :=
  negb (Qle_bool period (now - t)).

Definition window_count (period now : Q) (ts : list Q) : nat :=
  List.length (filter (in_window period now) ts).

(** The invariant that every run keeps, for a cap [M] and a period [P]:
    the limiter still has its parameters; its deque is in clock order and
    in the past; the timestamps it has dropped had all left the window;
    and the window holds at most [M] timestamps, with room for one more
    when a wait has just returned. *)
Definition consistent (M : Z) (P : Q) (s : run_state) : Prop :=
  max_requests (rs_limiter s) = M
  /\ period_seconds (rs_limiter s) = P
  /\ Sorted.StronglySorted Qle (request_timestamps (rs_limiter s))
  /\ Forall (fun t => t <= rs_clock s)%Q (request_timestamps (rs_limiter s))
  /\ (exists dropped,
        rs_recorded s = dropped ++ request_timestamps (rs_limiter s)
        /\ Forall (fun t => t <= rs_clock s - P)%Q dropped)
  /\ (Z.of_nat (window_count P (rs_clock s) (rs_recorded s))
      + (if rs_ready s then 1 else 0) <= M)%Z.

(* ===================================================================== *)
(** ** What the rows use, and the rules of the specification *)
(* ===================================================================== *)

(** The identifier a row is fetched with, read off [process_row]: the
    selected one when [if identifier:] holds, none otherwise. *)
Definition effective_identifier (df : frame) (r : row)
  : option (pyval * string) :=
  match select df r with
  | Some (identifier, id_type) =>
      if py_truthy identifier then Some (identifier, id_type) else None
  | None => None
  end.

(** The priority rule in the words of the specification: a non-empty
    domain that is present is used; otherwise a publisher id that is
    present and looks valid is used; otherwise the row has no usable
    identifier.  "Present" is [pd.notna], "non-empty" and "valid-looking"
    are truth of the value. *)
Definition spec_effective_identifier (df : frame) (r : row)
  : option (pyval * string) :=
  let d := get_domain df r in
  let p := get_publisher_id df r in
  if pd_notna d && py_truthy d then Some (d, "domain")
  else if pd_notna p && py_truthy p then Some (p, "id")
  else None.

(** The object a 200 body stands for: the first element of a non-empty
    list, or the body itself, when that is a JSON object. *)
Definition body_object (body : pyval) : option dict :=
  match body with
  | PList (PDict d :: _) => Some d
  | PDict d => Some d
  | _ => None
  end.

(** The record the specification asks for from an object: each fixed
    field copied, null when the key is missing, and a [categories] that
    is the list of the strings [strs] collapsed to one string. *)
Definition spec_collapse (v : pyval) : pyval :=
  match v with
  | PList l =>
      PStr (String.concat "; "
              (map (fun x => match x with PStr s => s | _ => EmptyString end) l))
  | _ => v
  end.

Definition spec_record (d : dict) : dict :=
  map (fun field =>
         (field, if (field =? "categories")%string
                 then spec_collapse (dict_get d field)
                 else dict_get d field))
      FIELDS.

Definition is_str (v : pyval) : bool :=
  match v with PStr _ => true | _ => false end.

(** The [categories] of an object are a scalar or a list of strings. *)
Definition categories_typed (d : dict) : bool :=
  match dict_get d "categories" with
  | PList l => forallb is_str l
  | _ => true
  end.

(* ===================================================================== *)
(** ** Sample data *)
(* ===================================================================== *)

(** A server that gives the same response to every request. *)
Definition always (r : response) : nat -> net_outcome :=
  fun _ => NetResponse r.

Definition ok_response (body : pyval) : response :=
  mkResponse 200 None (Ok body) EmptyString.

Definition throttled (header : option string) : response :=
  mkResponse 429 header (Raise RequestException) EmptyString.

Definition acme : dict :=
  [("publisher_id", PInt 7); ("name", PStr "Acme");
   ("categories", PList [PStr "News"; PStr "Tech"])].

Definition mixed_categories : dict :=
  [("publisher_id", PInt 7);
   ("categories", PList [PStr "News"; PInt 3])].

Definition both_columns (todo : list row) : frame := mkFrame true true todo.

Definition http_date : string := "Wed, 21 Oct 2015 07:28:00 GMT".

(* ===================================================================== *)
(** ** The name of the output file *)
(* ===================================================================== *)

(** [c in s], for a one-character [c]. *)
Fixpoint str_contains (c : ascii) (s : string) : bool :=
  match s with
  | EmptyString => false
  | String a s' => Ascii.eqb a c || str_contains c s'
  end.

(** The split of [s] at its last [c]: what is before it and what is
    after it; [None] when [c] does not occur. *)
Fixpoint rsplit_once (c : ascii) (s : string) : option (string * string) :=
  match s with
  | EmptyString => None
  | String a s' =>
      match rsplit_once c s' with
      | Some (before, after) => Some (String a before, after)
      | None => if Ascii.eqb a c then Some (EmptyString, s') else None
      end
  end.

(** [s.rsplit(c, 1)] *)
Definition py_rsplit1 (c : ascii) (s : string) : list string :=
  match rsplit_once c s with
  | Some (before, after) => [before; after]
  | None => [s]
  end.

(** The name [process_excel_file] writes to: [base_name] is
    [input_file.rsplit('.', 1)[0]] when the name has a dot. *)
Definition output_file (input_file : string) : string :=
  if str_contains "."%char input_file
  then String.append (nth 0 (py_rsplit1 "."%char input_file) EmptyString)
                     "_results.xlsx"
  else String.append input_file "_results.xlsx".

(** The passthrough keys a record of the sheet [df] gets, in order. *)
Definition passthrough_keys (df : frame) : list string :=
  (if has_pub_id df then ["input_publisher_id"] else [])
  ++ (if has_domain df then ["input_domain"] else []).

(** The waits that the limiter announces in a list of events, in order. *)
Fixpoint rate_waits (evs : list event) : list Q :=
  match evs with
  | [] => []
  | Log (MsgRateLimitWait w) :: evs' => w :: rate_waits evs'
  | _ :: evs' => rate_waits evs'
  end.

(** A sheet of three rows: a domain, an id alone, nothing usable. *)
Definition three_rows : frame :=
  both_columns [mkRow (CInt 7) (CStr "a.com");
                mkRow (CInt 8) empty_cell;
                mkRow empty_cell empty_cell].

(* ===================================================================== *)
(** * Properties *)
(* ===================================================================== *)

(** ** Events and the [io] computations *)

Lemma bind_lift_ok {A B} (a : A) (f : A -> io B) : bind (lift (Ok a)) f = f a.
Proof. unfold bind, lift. now destruct (f a). Qed.

Lemma requests_of_app (l1 l2 : list event) :
  requests_of (l1 ++ l2) = requests_of l1 ++ requests_of l2.
Proof.
  induction l1 as [|ev l1 IH]; [reflexivity|].
  destruct ev; simpl; now rewrite ?IH.
Qed.

Lemma Qle_bool_false (x y : Q) : Qle_bool x y = false -> (y < x)%Q.
Proof.
  intros E. apply Qnot_le_lt. intros H. apply Qle_bool_iff in H. congruence.
Qed.

Lemma time_sleep_pos (d : Q) : (0 < d)%Q -> time_sleep d = ([Sleep d], Ok tt).
Proof.
  intros Hd. unfold time_sleep.
  assert (E : Qle_bool 0 d = true) by (apply Qle_bool_iff; lra).
  now rewrite E.
Qed.

Lemma time_sleep_nonneg (n : Z) :
  (0 <= n)%Z -> time_sleep (inject_Z n) = ([Sleep (inject_Z n)], Ok tt).
Proof.
  intros Hn. unfold time_sleep.
  assert (E : Qle_bool 0 (inject_Z n) = true).
  { apply Qle_bool_iff. unfold Qle. simpl. lia. }
  now rewrite E.
Qed.

(* ===================================================================== *)
(** ** The rate limiter *)
(* ===================================================================== *)

Section Window.

Variable P : Q.

Lemma in_window_true (now t : Q) :
  in_window P now t = true <-> (now - t < P)%Q.
Proof.
  unfold in_window. rewrite negb_true_iff. split.
  - apply Qle_bool_false.
  - intros H. destruct (Qle_bool P (now - t)) eqn:E; [|reflexivity].
    apply Qle_bool_iff in E. lra.
Qed.

Lemma in_window_false (now t : Q) :
  in_window P now t = false <-> (P <= now - t)%Q.
Proof. unfold in_window. rewrite negb_false_iff. apply Qle_bool_iff. Qed.

Lemma window_count_app (now : Q) (l1 l2 : list Q) :
  window_count P now (l1 ++ l2)
  = (window_count P now l1 + window_count P now l2)%nat.
Proof. unfold window_count. now rewrite filter_app, length_app. Qed.

Lemma window_count_le_length (now : Q) (l : list Q) :
  (window_count P now l <= List.length l)%nat.
Proof. apply filter_length_le. Qed.

(** As time passes, timestamps only leave the window. *)
Lemma window_count_mono (now1 now2 : Q) (l : list Q) :
  (now1 <= now2)%Q ->
  (window_count P now2 l <= window_count P now1 l)%nat.
Proof.
  intros Hle. unfold window_count.
  induction l as [|t l IH]; simpl; [lia|].
  destruct (in_window P now2 t) eqn:E2.
  - apply in_window_true in E2.
    assert (E1 : in_window P now1 t = true) by (apply in_window_true; lra).
    rewrite E1. simpl. lia.
  - destruct (in_window P now1 t); simpl; lia.
Qed.

Lemma window_count_stale (now : Q) (l : list Q) :
  Forall (fun t => t <= now - P)%Q l -> window_count P now l = 0%nat.
Proof.
  unfold window_count. induction 1 as [|t l Ht _ IH]; simpl; [reflexivity|].
  assert (E : in_window P now t = false) by (apply in_window_false; lra).
  now rewrite E.
Qed.

Lemma window_count_fresh (now : Q) (l : list Q) :
  Forall (fun t => now - P < t)%Q l -> window_count P now l = List.length l.
Proof.
  unfold window_count. induction 1 as [|t l Ht _ IH]; simpl; [reflexivity|].
  assert (E : in_window P now t = true) by (apply in_window_true; lra).
  rewrite E. simpl. now rewrite IH.
Qed.

End Window.

(** The eviction loop drops a prefix of timestamps at or before the
    bound and stops at the first one after it. *)
Lemma evict_split (bound : Q) (q : list Q) :
  exists dropped,
    q = dropped ++ evict bound q
    /\ Forall (fun t => t <= bound)%Q dropped
    /\ match evict bound q with
       | [] => True
       | oldest :: _ => (bound < oldest)%Q
       end.
Proof.
  induction q as [|t q (dropped & Hq & Hd & Hh)]; simpl.
  - exists []. repeat split; constructor.
  - destruct (Qle_bool t bound) eqn:E.
    + apply Qle_bool_iff in E. exists (t :: dropped).
      repeat split; [simpl; congruence | now constructor | exact Hh].
    + exists []. repeat split; [constructor|]. now apply Qle_bool_false.
Qed.

Lemma sorted_suffix (l1 l2 : list Q) :
  Sorted.StronglySorted Qle (l1 ++ l2) -> Sorted.StronglySorted Qle l2.
Proof.
  induction l1 as [|t l1 IH]; simpl; intros H; [exact H|].
  inversion H; subst. now apply IH.
Qed.

Lemma sorted_snoc (l : list Q) (t : Q) :
  Sorted.StronglySorted Qle l -> Forall (fun u => u <= t)%Q l ->
  Sorted.StronglySorted Qle (l ++ [t]).
Proof.
  induction 1 as [|u l Hl IH Hu]; simpl; intros Hall.
  - repeat constructor.
  - inversion Hall; subst. constructor; [now apply IH|].
    apply Forall_app. split; [exact Hu | now repeat constructor].
Qed.

Lemma sorted_above_head (bound t : Q) (l : list Q) :
  Sorted.StronglySorted Qle (t :: l) -> (bound < t)%Q ->
  Forall (fun u => bound < u)%Q (t :: l).
Proof.
  intros H Hb. inversion H as [|? ? _ Hall]; subst.
  constructor; [exact Hb|].
  eapply Forall_impl; [|exact Hall]. simpl. intros u Hu. lra.
Qed.

Lemma Forall_Qle_trans (l : list Q) (a b : Q) :
  (a <= b)%Q -> Forall (fun t => t <= a)%Q l -> Forall (fun t => t <= b)%Q l.
Proof.
  intros Hab H. eapply Forall_impl; [|exact H]. simpl. intros t Ht. lra.
Qed.

(** What a call of [wait_if_needed] that returns has done: the deque is
    the evicted one, and either the window had room and nothing was
    printed or slept, or it was full and the sleeps add up to
    [oldest - (current_time - period_seconds)]. *)
Lemma wait_if_needed_returns (now : Q) (self limiter : RateLimiter)
  (evs : list event) :
  wait_if_needed now self = (evs, Ok limiter) ->
  let q := evict (now - period_seconds self) (request_timestamps self) in
  limiter = mkRateLimiter (max_requests self) (period_seconds self) q
  /\ ((Z.of_nat (List.length q) < max_requests self)%Z /\ evs = []
      \/ exists oldest rest,
           q = oldest :: rest
           /\ (max_requests self <= Z.of_nat (List.length q))%Z
           /\ (slept evs == oldest - (now - period_seconds self))%Q).
Proof.
  intros H q. unfold wait_if_needed in H. fold q in H.
  destruct (evict_split (now - period_seconds self) (request_timestamps self))
    as (dropped & _ & _ & Hhead). fold q in Hhead.
  destruct (max_requests self <=? Z.of_nat (List.length q))%Z eqn:E.
  - apply Z.leb_le in E.
    destruct q as [|oldest rest] eqn:Eq; [discriminate|].
    set (w := (oldest - (now - period_seconds self))%Q) in *.
    assert (Hw : (0 < w)%Q) by (unfold w; lra).
    assert (Ew : Qle_bool w 0 = false).
    { destruct (Qle_bool w 0) eqn:Ew; [|reflexivity].
      apply Qle_bool_iff in Ew. lra. }
    rewrite Ew in H. simpl in H. unfold bind in H. simpl in H.
    rewrite (time_sleep_pos w Hw) in H. simpl in H.
    injection H as <- <-. split; [reflexivity|].
    right. exists oldest, rest. repeat split; [exact E|]. simpl. unfold w. lra.
  - apply Z.leb_gt in E. injection H as <- <-.
    split; [reflexivity|]. left. now split.
Qed.

(** With a positive cap the call always returns: the [IndexError] of
    [request_timestamps[0]] needs an empty deque and a cap of zero or less. *)
Lemma wait_if_needed_total (now : Q) (self : RateLimiter) :
  (0 < max_requests self)%Z ->
  exists evs limiter, wait_if_needed now self = (evs, Ok limiter).
Proof.
  intros HM. unfold wait_if_needed.
  set (q := evict (now - period_seconds self) (request_timestamps self)).
  destruct (evict_split (now - period_seconds self) (request_timestamps self))
    as (dropped & _ & _ & Hhead). fold q in Hhead.
  destruct (max_requests self <=? Z.of_nat (List.length q))%Z eqn:E;
    [|eexists; eexists; reflexivity].
  apply Z.leb_le in E.
  destruct q as [|oldest rest]; [simpl in E; lia|].
  set (w := (oldest - (now - period_seconds self))%Q).
  assert (Hw : (0 < w)%Q) by (unfold w; lra).
  destruct (Qle_bool w 0); simpl; [eexists; eexists; reflexivity|].
  unfold bind. simpl. rewrite (time_sleep_pos w Hw). simpl.
  eexists; eexists; reflexivity.
Qed.

Lemma slept_nonneg_after_wait (now : Q) (self limiter : RateLimiter)
  (evs : list event) :
  wait_if_needed now self = (evs, Ok limiter) -> (0 <= slept evs)%Q.
Proof.
  intros H.
  pose proof (evict_split (now - period_seconds self)
                          (request_timestamps self)) as (d & _ & _ & Hh).
  apply wait_if_needed_returns in H.
  destruct H as (_ & [(_ & ->)|(o & r & Eq & _ & Hs)]).
  - simpl. lra.
  - rewrite Eq in Hh. lra.
Qed.

Lemma wait_if_needed_sends_nothing (now : Q) (self : RateLimiter) :
  requests_of (events (wait_if_needed now self)) = [].
Proof.
  unfold wait_if_needed, time_sleep.
  destruct (_ <=? _)%Z; [|reflexivity].
  destruct (evict _ _) as [|oldest rest]; [reflexivity|].
  destruct (Qle_bool (oldest - _) 0); [reflexivity|]. simpl.
  unfold bind, emit. now destruct (Qle_bool 0 _).
Qed.

Lemma consistent_start (M : Z) (P t0 : Q) :
  (0 <= M)%Z -> consistent M P (start M P t0).
Proof.
  intros HM. unfold consistent, start, new_limiter. simpl.
  repeat split; try constructor.
  - exists []. split; constructor.
  - unfold window_count. simpl. lia.
Qed.

Lemma consistent_step (M : Z) (P : Q) (s s' : run_state) :
  consistent M P s -> step s s' -> consistent M P s'.
Proof.
  intros (HM & HP & Hsorted & Hpast & (old & Hrec & Hold) & Hcount) Hstep.
  destruct Hstep as [s now evs limiter Hnow Hwait | s now Hnow Hready].
  - (* wait_if_needed *)
    pose proof (slept_nonneg_after_wait _ _ _ _ Hwait) as Hslept.
    destruct (wait_if_needed_returns _ _ _ _ Hwait) as (-> & Hcases).
    destruct (evict_split (now - period_seconds (rs_limiter s))
                          (request_timestamps (rs_limiter s)))
      as (dropped & Hq & Hdropped & Hhead).
    rewrite HP, HM in *.
    set (q := evict (now - P) (request_timestamps (rs_limiter s))) in *.
    assert (Hqs : Sorted.StronglySorted Qle q).
    { apply (sorted_suffix dropped). now rewrite <- Hq. }
    assert (Hrec' : rs_recorded s = (old ++ dropped) ++ q).
    { rewrite Hrec, Hq at 1. now rewrite app_assoc. }
    assert (Hstale : Forall (fun t => t <= now - P)%Q (old ++ dropped)).
    { apply Forall_app. split; [|exact Hdropped].
      apply (Forall_Qle_trans old (rs_clock s - P)); [lra | exact Hold]. }
    unfold consistent. simpl. repeat split; trivial.
    + rewrite Hq in Hpast. apply Forall_app in Hpast.
      destruct Hpast as [_ Hpast].
      apply (Forall_Qle_trans q (rs_clock s)); [lra | exact Hpast].
    + exists (old ++ dropped). split; [exact Hrec'|].
      apply (Forall_Qle_trans _ (now - P)); [lra | exact Hstale].
    + rewrite Hrec', window_count_app.
      rewrite (window_count_stale P (now + slept evs) (old ++ dropped))
        by (apply (Forall_Qle_trans _ (now - P)); [lra | exact Hstale]).
      simpl.
      destruct Hcases as [(Hlt & ->) | (oldest & rest & Eq & Hge & Hs)].
      * pose proof (window_count_le_length P (now + slept []) q). lia.
      * (* the window was full: all that is left was recorded less than
           a period before [now], so it is exactly [M] timestamps, and
           the oldest has left the window when the sleep ends *)
        assert (Hfresh : Forall (fun t => now - P < t)%Q q).
        { rewrite Eq in *. now apply sorted_above_head. }
        assert (Hfull : (Z.of_nat (List.length q) <= M)%Z).
        { pose proof (window_count_mono P (rs_clock s) now (rs_recorded s)
                                        Hnow) as Hm.
          assert (Hall : window_count P now (rs_recorded s) = List.length q).
          { now rewrite Hrec', window_count_app,
              (window_count_stale P now _ Hstale),
              (window_count_fresh P now q Hfresh). }
          destruct (rs_ready s); lia. }
        rewrite Eq in *. unfold window_count. simpl.
        assert (E : in_window P (now + slept evs) oldest = false)
          by (apply in_window_false; lra).
        rewrite E.
        pose proof (window_count_le_length P (now + slept evs) rest) as Hl.
        unfold window_count in Hl. simpl in Hfull. lia.
  - (* record_request *)
    unfold consistent. simpl. repeat split; trivial.
    + apply sorted_snoc; [exact Hsorted|].
      apply (Forall_Qle_trans _ (rs_clock s)); [lra | exact Hpast].
    + apply Forall_app. split.
      * apply (Forall_Qle_trans _ (rs_clock s)); [lra | exact Hpast].
      * repeat constructor. lra.
    + exists old. split; [now rewrite Hrec, app_assoc|].
      apply (Forall_Qle_trans _ (rs_clock s - P)); [lra | exact Hold].
    + rewrite Hready in Hcount. rewrite window_count_app.
      pose proof (window_count_mono P (rs_clock s) now (rs_recorded s) Hnow).
      pose proof (window_count_le_length P now [now]). simpl in *. lia.
Qed.

Lemma consistent_reachable (M : Z) (P : Q) (s : run_state) :
  (0 <= M)%Z -> reachable M P s -> consistent M P s.
Proof.
  intros HM. induction 1 as [t0 | s s' _ IH Hstep].
  - now apply consistent_start.
  - now apply (consistent_step M P s s').
Qed.

(** C2: in every run of a limiter with a positive cap [M] and a period
    [P], where each [record_request] comes straight after a
    [wait_if_needed], at every instant [now] from the last call on at most
    [M] of all the timestamps ever recorded are younger than [P].  And
    [wait_if_needed] always returns: it leaves the deque with the entries
    at or before [now - P] evicted, and when [M] or more entries are left
    it has slept [oldest - (now - P)]. *)
Theorem rate_window_never_exceeded (M : Z) (P : Q) (s : run_state) :
  (0 < M)%Z ->
  reachable M P s ->
  (forall now, (rs_clock s <= now)%Q ->
     (Z.of_nat (window_count P now (rs_recorded s)) <= M)%Z)
  /\ (forall now, exists evs limiter,
        wait_if_needed now (rs_limiter s) = (evs, Ok limiter)
        /\ request_timestamps limiter
           = evict (now - P) (request_timestamps (rs_limiter s))
        /\ match request_timestamps limiter with
           | oldest :: _ =>
               (M <= Z.of_nat (List.length (request_timestamps limiter)))%Z ->
               (slept evs == oldest - (now - P))%Q
           | [] => evs = []
           end).
Proof.
  intros HM Hreach.
  destruct (consistent_reachable M P s) as (Hmax & Hper & _ & _ & _ & Hcount);
    [lia | exact Hreach |].
  split.
  - intros now Hnow.
    pose proof (window_count_mono P (rs_clock s) now (rs_recorded s) Hnow).
    destruct (rs_ready s); lia.
  - intros now.
    destruct (wait_if_needed_total now (rs_limiter s)) as (evs & limiter & Hw);
      [now rewrite Hmax|].
    exists evs, limiter. split; [exact Hw|].
    destruct (wait_if_needed_returns _ _ _ _ Hw) as (-> & Hcases).
    rewrite Hmax, Hper in *. cbn [request_timestamps]. split; [reflexivity|].
    destruct Hcases as [(Hlt & ->) | (oldest & rest & -> & Hge & Hs)].
    + destruct (evict _ _); [reflexivity | intros Hge; lia].
    + now intros _.
Qed.

(** A run with a cap of one request a minute: a request at 0, a wait at
    10 that sleeps 50, a request at 60. *)
Lemma rate_window_never_exceeded_witness :
  (forall now, (60 <= now)%Q ->
     (Z.of_nat (window_count 60 now [0%Q; 60%Q]) <= 1)%Z)
  /\ (forall now, exists evs limiter,
        wait_if_needed now (mkRateLimiter 1 60 [0%Q; 60%Q]) = (evs, Ok limiter)
        /\ request_timestamps limiter = evict (now - 60) [0%Q; 60%Q]
        /\ match request_timestamps limiter with
           | oldest :: _ =>
               (1 <= Z.of_nat (List.length (request_timestamps limiter)))%Z ->
               (slept evs == oldest - (now - 60))%Q
           | [] => evs = []
           end).
Proof.
  apply (rate_window_never_exceeded 1 60
           (mkRun (mkRateLimiter 1 60 [0%Q; 60%Q]) 60 [0%Q; 60%Q] false));
    [lia|].
  apply (reach_step 1 60
           (mkRun (mkRateLimiter 1 60 [0%Q]) 60 [0%Q] true));
    [|apply (step_record (mkRun (mkRateLimiter 1 60 [0%Q]) 60 [0%Q] true) 60);
      [simpl; lra | reflexivity]].
  apply (reach_step 1 60 (mkRun (mkRateLimiter 1 60 [0%Q]) 0 [0%Q] false));
    [|apply (step_wait (mkRun (mkRateLimiter 1 60 [0%Q]) 0 [0%Q] false) 10
                       [Log (MsgRateLimitWait 50); Sleep 50]
                       (mkRateLimiter 1 60 [0%Q]));
      [simpl; lra | reflexivity]].
  apply (reach_step 1 60 (mkRun (mkRateLimiter 1 60 []) 0 [] true));
    [|apply (step_record (mkRun (mkRateLimiter 1 60 []) 0 [] true) 0);
      [simpl; lra | reflexivity]].
  apply (reach_step 1 60 (start 1 60 0));
    [apply reach_start
    |apply (step_wait (start 1 60 0) 0 [] (mkRateLimiter 1 60 []));
      [simpl; lra | reflexivity]].
Defined.

(* ===================================================================== *)
(** ** The fetcher *)
(* ===================================================================== *)

(** *** Identifier validation *)

(** An identifier on which [int] raises [ValueError] or [TypeError] is
    answered with a warning and an all-null record, and nothing is sent. *)
Lemma invalid_id_skipped (net : nat -> net_outcome) (identifier : pyval) :
  py_int identifier = Raise ValueError \/ py_int identifier = Raise TypeError ->
  fetch_publisher_metadata net identifier "id"
  = ([Log (MsgInvalidId identifier)], Ok all_null).
Proof.
  intros H. unfold fetch_publisher_metadata, resolve. simpl.
  now destruct H as [-> | ->].
Qed.

Example text_id_skipped (net : nat -> net_outcome) :
  fetch_publisher_metadata net (PStr "abc") "id"
  = ([Log (MsgInvalidId (PStr "abc"))], Ok all_null).
Proof. apply invalid_id_skipped. now left. Qed.

(** C8, at the identifier where the code departs from it: [int] of an
    infinite float raises [OverflowError], which the
    [except (ValueError, TypeError)] does not catch, so no warning is
    printed and no record returned: the exception escapes the function. *)
Theorem infinite_id_escapes (net : nat -> net_outcome) (negative : bool) :
  fetch_publisher_metadata net (PFloat (FInf negative)) "id"
  = ([], Raise OverflowError).
Proof. reflexivity. Qed.

(** *** One turn of the retry loop *)

(** A 429 whose [Retry-After] is absent or reads as a non-negative
    integer: the fetcher prints, sleeps that long, and goes on. *)
Lemma attempt_429 (net : nat -> net_outcome) (t : target) (attempt : nat)
  (r : response) (n : Z) :
  net attempt = NetResponse r ->
  status_code r = 429 ->
  py_int (retry_after_of r) = Ok n ->
  (0 <= n)%Z ->
  attempt_once net t attempt
  = ([Get t; Log (MsgRateLimited t n attempt); Sleep (inject_Z n)], Ok None).
Proof.
  intros Hnet Hs Hint Hn. unfold attempt_once, attempt_body.
  rewrite Hnet, Hs. simpl. rewrite Hint.
  unfold lift, bind, emit, catch, ret. cbn [fst snd app].
  rewrite (time_sleep_nonneg n Hn). reflexivity.
Qed.

Lemma attempt_429_default (net : nat -> net_outcome) (t : target)
  (attempt : nat) (r : response) :
  net attempt = NetResponse r ->
  status_code r = 429 ->
  retry_after_header r = None ->
  attempt_once net t attempt
  = ([Get t; Log (MsgRateLimited t 2 attempt); Sleep 2], Ok None).
Proof.
  intros Hnet Hs Hh.
  apply (attempt_429 net t attempt r 2 Hnet Hs); [|lia].
  unfold retry_after_of. now rewrite Hh.
Qed.

(** Three 429 answers with [Retry-After: 5]: three requests, a pause of
    five seconds after each, then the all-null record. *)
Example throttled_three_times :
  fetch_publisher_metadata (always (throttled (Some "5"))) (PInt 7) "id"
  = ([Get (TId 7); Log (MsgRateLimited (TId 7) 5 0); Sleep 5;
      Get (TId 7); Log (MsgRateLimited (TId 7) 5 1); Sleep 5;
      Get (TId 7); Log (MsgRateLimited (TId 7) 5 2); Sleep 5],
     Ok all_null).
Proof. reflexivity. Qed.

(** C3, at the headers where the code departs from it: a 429 whose
    [Retry-After] is there but is not an integer literal is not read as
    the default of two seconds.  [int] raises [ValueError] inside the
    [try], only [RequestException] is caught there, and the exception
    escapes after one request, with no sleep and no further attempt. *)
Theorem unparsable_retry_after_escapes (net : nat -> net_outcome)
  (t : target) (attempt : nat) (rest : list nat) (r : response)
  (header : string) :
  net attempt = NetResponse r ->
  status_code r = 429 ->
  retry_after_header r = Some header ->
  int_of_str header = None ->
  attempts net t (attempt :: rest) = ([Get t], Raise ValueError).
Proof.
  intros Hnet Hs Hh Hint. cbn [attempts].
  unfold attempt_once, attempt_body, retry_after_of.
  rewrite Hnet, Hs, Hh. cbn [py_int]. rewrite Hint. reflexivity.
Qed.

(** An HTTP date, which the protocol allows in [Retry-After]. *)
Lemma unparsable_retry_after_escapes_witness :
  attempts (always (throttled (Some http_date))) (TId 7)
           [0%nat; 1%nat; 2%nat]
  = ([Get (TId 7)], Raise ValueError).
Proof.
  apply (unparsable_retry_after_escapes
           (always (throttled (Some http_date))) (TId 7) 0 [1%nat; 2%nat]
           (throttled (Some http_date)) http_date);
    reflexivity.
Defined.

(** A negative [Retry-After] is read, and [time.sleep] refuses it. *)
Example negative_retry_after_escapes :
  fetch_publisher_metadata (always (throttled (Some "-1"))) (PInt 7) "id"
  = ([Get (TId 7); Log (MsgRateLimited (TId 7) (-1) 0)], Raise ValueError).
Proof. reflexivity. Qed.

(** C1, at inputs where the code departs from it: the fetch raises to
    its caller on a 429 whose [Retry-After] is not a number, on a 200
    whose [categories] list holds a non-string, and on a 200 whose JSON
    body is neither a list nor an object. *)
Theorem fetch_raises_on_malformed_data :
  fetch_publisher_metadata (always (throttled (Some "soon"))) (PInt 7) "id"
  = ([Get (TId 7)], Raise ValueError)
  /\ fetch_publisher_metadata
       (always (ok_response (PDict mixed_categories))) (PInt 7) "id"
     = ([Get (TId 7)], Raise TypeError)
  /\ fetch_publisher_metadata
       (always (ok_response (PStr "ok"))) (PStr "x.com") "domain"
     = ([Get (TDomain (PStr "x.com"))], Raise AttributeError).
Proof. repeat split. Qed.

(** C9: on a response whose status is neither 200 nor 429 the loop
    prints the status and the body and returns at once, whatever attempts
    were left, the record that has every fixed field with the value null:
    after the one request nothing more is sent. *)
Theorem other_status_is_terminal (net : nat -> net_outcome) (t : target)
  (attempt : nat) (rest : list nat) (r : response) :
  net attempt = NetResponse r ->
  status_code r <> 200 ->
  status_code r <> 429 ->
  attempts net t (attempt :: rest)
  = ([Get t; Log (MsgFailed t (status_code r) (text r))],
     Ok [("publisher_id", PNone); ("name", PNone); ("visit_enabled", PNone);
         ("status", PNone); ("primary_supply_type", PNone);
         ("pub_description", PNone); ("categories", PNone); ("slug", PNone);
         ("avg_ads_to_content_ratio", PNone); ("avg_ads_in_view", PNone);
         ("avg_ad_refresh", PNone); ("total_unique_gpids", PNone);
         ("id_absorption_rate", PNone); ("avg_page_weight", PNone);
         ("avg_cpu", PNone); ("total_supply_paths", PNone);
         ("reseller_count", PNone); ("owner_domain", PNone);
         ("updated_at", PNone)]).
Proof.
  intros Hnet H200 H429. simpl. unfold attempt_once, attempt_body.
  rewrite Hnet.
  apply Z.eqb_neq in H200. apply Z.eqb_neq in H429.
  rewrite H200, H429. reflexivity.
Qed.

Lemma other_status_is_terminal_witness :
  attempts (always (mkResponse 503 None (Raise ValueError) "busy"))
           (TId 7) [1%nat; 2%nat]
  = ([Get (TId 7); Log (MsgFailed (TId 7) 503 "busy")],
     Ok [("publisher_id", PNone); ("name", PNone); ("visit_enabled", PNone);
         ("status", PNone); ("primary_supply_type", PNone);
         ("pub_description", PNone); ("categories", PNone); ("slug", PNone);
         ("avg_ads_to_content_ratio", PNone); ("avg_ads_in_view", PNone);
         ("avg_ad_refresh", PNone); ("total_unique_gpids", PNone);
         ("id_absorption_rate", PNone); ("avg_page_weight", PNone);
         ("avg_cpu", PNone); ("total_supply_paths", PNone);
         ("reseller_count", PNone); ("owner_domain", PNone);
         ("updated_at", PNone)]).
Proof.
  apply (other_status_is_terminal
           (always (mkResponse 503 None (Raise ValueError) "busy"))
           (TId 7) 1 [2%nat] (mkResponse 503 None (Raise ValueError) "busy"));
    [reflexivity | simpl; lia | simpl; lia].
Defined.

(** C7: when the identifier passes validation and each of the three
    calls of [requests.get] raises, the fetcher sends three requests,
    sleeps the default two seconds after the first and after the second,
    and returns after the third the record that has every fixed field
    with the value null. *)
Theorem transport_failures_exhaust (net : nat -> net_outcome)
  (identifier : pyval) (id_type : string) (t : target) :
  resolve identifier id_type = Resolved t ->
  (forall attempt, (attempt < MAX_RETRIES)%nat -> net attempt = NetError) ->
  fetch_publisher_metadata net identifier id_type
  = ([Get t; Log (MsgError t); Log (MsgRetrying 0); Sleep 2;
      Get t; Log (MsgError t); Log (MsgRetrying 1); Sleep 2;
      Get t; Log (MsgError t); Log (MsgGaveUp t)],
     Ok [("publisher_id", PNone); ("name", PNone); ("visit_enabled", PNone);
         ("status", PNone); ("primary_supply_type", PNone);
         ("pub_description", PNone); ("categories", PNone); ("slug", PNone);
         ("avg_ads_to_content_ratio", PNone); ("avg_ads_in_view", PNone);
         ("avg_ad_refresh", PNone); ("total_unique_gpids", PNone);
         ("id_absorption_rate", PNone); ("avg_page_weight", PNone);
         ("avg_cpu", PNone); ("total_supply_paths", PNone);
         ("reseller_count", PNone); ("owner_domain", PNone);
         ("updated_at", PNone)]).
Proof.
  intros Hres Hnet. unfold fetch_publisher_metadata. rewrite Hres.
  simpl. unfold attempt_once, attempt_body.
  rewrite !Hnet by (unfold MAX_RETRIES; lia). reflexivity.
Qed.

Lemma transport_failures_exhaust_witness :
  fetch_publisher_metadata (fun _ => NetError) (PStr "x.com") "domain"
  = ([Get (TDomain (PStr "x.com")); Log (MsgError (TDomain (PStr "x.com")));
      Log (MsgRetrying 0); Sleep 2;
      Get (TDomain (PStr "x.com")); Log (MsgError (TDomain (PStr "x.com")));
      Log (MsgRetrying 1); Sleep 2;
      Get (TDomain (PStr "x.com")); Log (MsgError (TDomain (PStr "x.com")));
      Log (MsgGaveUp (TDomain (PStr "x.com")))],
     Ok [("publisher_id", PNone); ("name", PNone); ("visit_enabled", PNone);
         ("status", PNone); ("primary_supply_type", PNone);
         ("pub_description", PNone); ("categories", PNone); ("slug", PNone);
         ("avg_ads_to_content_ratio", PNone); ("avg_ads_in_view", PNone);
         ("avg_ad_refresh", PNone); ("total_unique_gpids", PNone);
         ("id_absorption_rate", PNone); ("avg_page_weight", PNone);
         ("avg_cpu", PNone); ("total_supply_paths", PNone);
         ("reseller_count", PNone); ("owner_domain", PNone);
         ("updated_at", PNone)]).
Proof.
  apply (transport_failures_exhaust (fun _ => NetError) (PStr "x.com")
           "domain" (TDomain (PStr "x.com"))); reflexivity.
Defined.

(** *** The 200 path *)

Lemma py_join_strings (sep : string) (l : list pyval) :
  forallb is_str l = true ->
  py_join sep l
  = Ok (String.concat sep
          (map (fun x => match x with PStr s => s | _ => EmptyString end) l)).
Proof.
  induction l as [|x l IH]; [reflexivity|].
  intros H. apply andb_prop in H. destruct H as [Hx Hl].
  destruct x; try discriminate. specialize (IH Hl).
  destruct l as [|y l]; [reflexivity|].
  change (py_join sep (PStr s :: y :: l))
    with (match py_join sep (y :: l) with
          | Ok r => Ok (String.append s (String.append sep r))
          | Raise e => Raise e
          end).
  now rewrite IH.
Qed.

Lemma project_then_join (d : dict) :
  categories_typed d = true ->
  match project (PDict d) with
  | Ok result => join_categories result
  | Raise e => Raise e
  end = Ok (spec_record d).
Proof.
  unfold categories_typed, project, join_categories, spec_record.
  cbn [map FIELDS dict_get String.eqb Ascii.eqb Bool.eqb].
  intros H. cbn.
  destruct (dict_get d "categories") as [| | | | |l|] eqn:E; try reflexivity.
  rewrite (py_join_strings "; " l H). reflexivity.
Qed.

Lemma project_join_run (data : pyval) :
  (result <- lift (project data) ;;
   result <- lift (join_categories result) ;;
   ret (Some result))
  = ([], match match project data with
               | Ok result => join_categories result
               | Raise e => Raise e
               end with
         | Ok result => Ok (Some result)
         | Raise e => Raise e
         end).
Proof.
  destruct (project data) as [result|e]; [|reflexivity].
  rewrite bind_lift_ok. now destruct (join_categories result).
Qed.

(** C6 (for a body of the expected shape): on a 200 response whose body
    decodes, an empty list gives the record that has every fixed field
    with the value null; a JSON object, or a list that starts with one,
    whose [categories] is not a list or is a list of strings, gives that
    object projected on the fixed fields (null for a missing key) with a
    list of categories joined by "; ".  In both cases the record is
    returned after the one request, whatever attempts were left. *)
Theorem ok_response_is_projected (net : nat -> net_outcome) (t : target)
  (attempt : nat) (rest : list nat) (r : response) (body : pyval) :
  net attempt = NetResponse r ->
  status_code r = 200 ->
  json r = Ok body ->
  (body = PList [] ->
   attempts net t (attempt :: rest)
   = ([Get t; Log (MsgEmptyList t)],
      Ok [("publisher_id", PNone); ("name", PNone); ("visit_enabled", PNone);
          ("status", PNone); ("primary_supply_type", PNone);
          ("pub_description", PNone); ("categories", PNone); ("slug", PNone);
          ("avg_ads_to_content_ratio", PNone); ("avg_ads_in_view", PNone);
          ("avg_ad_refresh", PNone); ("total_unique_gpids", PNone);
          ("id_absorption_rate", PNone); ("avg_page_weight", PNone);
          ("avg_cpu", PNone); ("total_supply_paths", PNone);
          ("reseller_count", PNone); ("owner_domain", PNone);
          ("updated_at", PNone)]))
  /\ (forall d, body_object body = Some d ->
        categories_typed d = true ->
        attempts net t (attempt :: rest) = ([Get t], Ok (spec_record d))).
Proof.
  intros Hnet Hs Hj. split.
  - intros ->. cbn [attempts]. unfold attempt_once, attempt_body.
    rewrite Hnet, Hs, Hj. reflexivity.
  - intros d Hd Hc. pose proof (project_then_join d Hc) as Hp.
    cbn [attempts]. unfold attempt_once, attempt_body.
    rewrite Hnet, Hs, Hj, Z.eqb_refl, bind_lift_ok.
    assert (Hdata : match body with
                    | PList (first :: _) => first
                    | _ => body
                    end = PDict d).
    { destruct body as [| | | | |[|[| | | | | |d'] l]|d']; try discriminate;
        now injection Hd as ->. }
    assert (Hne : body <> PList []) by (intros ->; discriminate).
    replace (match body with
             | PList [] => emit (Log (MsgEmptyList t)) ;;; ret (Some all_null)
             | _ => _
             end)
      with (result <- lift (project (PDict d)) ;;
            result <- lift (join_categories result) ;;
            ret (Some result)).
    + rewrite project_join_run, Hp. reflexivity.
    + rewrite <- Hdata.
      destruct body as [| | | | |[|x l]|]; try reflexivity. now elim Hne.
Qed.

Lemma ok_response_is_projected_witness :
  attempts (always (ok_response (PList [PDict acme])))
           (TId 7) [0%nat; 1%nat; 2%nat]
  = ([Get (TId 7)],
     Ok [("publisher_id", PInt 7); ("name", PStr "Acme");
         ("visit_enabled", PNone); ("status", PNone);
         ("primary_supply_type", PNone); ("pub_description", PNone);
         ("categories", PStr "News; Tech"); ("slug", PNone);
         ("avg_ads_to_content_ratio", PNone); ("avg_ads_in_view", PNone);
         ("avg_ad_refresh", PNone); ("total_unique_gpids", PNone);
         ("id_absorption_rate", PNone); ("avg_page_weight", PNone);
         ("avg_cpu", PNone); ("total_supply_paths", PNone);
         ("reseller_count", PNone); ("owner_domain", PNone);
         ("updated_at", PNone)]).
Proof.
  apply (proj2 (ok_response_is_projected
                  (always (ok_response (PList [PDict acme])))
                  (TId 7) 0 [1%nat; 2%nat]
                  (ok_response (PList [PDict acme]))
                  (PList [PDict acme])
                  eq_refl eq_refl eq_refl)
               acme);
    reflexivity.
Defined.

(** A 200 whose [categories] list holds a number: the join raises and no
    record is returned. *)
Lemma mixed_categories_raise :
  ~ exists record,
      outcome (attempts (always (ok_response (PDict mixed_categories)))
                        (TId 7) [0%nat; 1%nat; 2%nat])
      = Ok record.
Proof. intros (record & H). discriminate H. Qed.

(** *** Where the requests go *)

(** Every turn of the retry loop sends exactly one request, to the
    resolved target. *)
Lemma attempt_once_sends_one (net : nat -> net_outcome) (t : target)
  (attempt : nat) :
  requests_of (events (attempt_once net t attempt)) = [t].
Proof.
  unfold attempt_once, attempt_body, time_sleep.
  destruct (net attempt) as [|r].
  - destruct (attempt <? MAX_RETRIES - 1)%nat; reflexivity.
  - destruct (status_code r =? 200)%Z.
    + destruct (json r) as [body|e].
      * rewrite bind_lift_ok.
        destruct body as [| | | | |[|x l]|]; try reflexivity.
        all: rewrite project_join_run.
        all: match goal with
             | |- context [match ?x with Ok _ => _ | Raise _ => _ end] =>
                 destruct x as [?|[]]
             end; try reflexivity.
        all: destruct (attempt <? MAX_RETRIES - 1)%nat; reflexivity.
      * destruct e; try reflexivity.
        destruct (attempt <? MAX_RETRIES - 1)%nat; reflexivity.
    + destruct (status_code r =? 429)%Z; [|reflexivity].
      destruct (py_int _) as [n|e].
      * rewrite bind_lift_ok. unfold bind, emit, catch.
        destruct (Qle_bool 0 (inject_Z n)); reflexivity.
      * destruct e; try reflexivity.
        destruct (attempt <? MAX_RETRIES - 1)%nat; reflexivity.
Qed.

Lemma attempts_target (net : nat -> net_outcome) (t : target)
  (todo : list nat) :
  Forall (eq t) (requests_of (events (attempts net t todo))).
Proof.
  induction todo as [|attempt rest IH]; simpl; [constructor|].
  pose proof (attempt_once_sends_one net t attempt) as H1.
  destruct (attempt_once net t attempt) as [evs [[result|]|e]] eqn:E;
    unfold bind; simpl in *.
  - rewrite app_nil_r, H1. now repeat constructor.
  - destruct (attempts net t rest) as [evs' r'] eqn:E'. simpl in *.
    rewrite requests_of_app, H1. now constructor.
  - rewrite H1. now repeat constructor.
Qed.

(** The loop never sends more than [MAX_RETRIES] requests. *)
Lemma attempts_bounded (net : nat -> net_outcome) (t : target)
  (todo : list nat) :
  (List.length (requests_of (events (attempts net t todo)))
   <= List.length todo)%nat.
Proof.
  induction todo as [|attempt rest IH]; simpl; [lia|].
  pose proof (attempt_once_sends_one net t attempt) as H1.
  destruct (attempt_once net t attempt) as [evs [[result|]|e]] eqn:E;
    unfold bind; simpl in *.
  - rewrite app_nil_r, H1. simpl. lia.
  - destruct (attempts net t rest) as [evs' r'] eqn:E'. simpl in *.
    rewrite requests_of_app, H1. simpl. lia.
  - rewrite H1. simpl. lia.
Qed.

Lemma fetch_targets (net : nat -> net_outcome) (identifier : pyval)
  (id_type : string) :
  Forall (fun t => resolve identifier id_type = Resolved t)
         (requests_of (events (fetch_publisher_metadata net identifier id_type))).
Proof.
  unfold fetch_publisher_metadata.
  destruct (resolve identifier id_type) as [t|w|e]; try constructor.
  eapply Forall_impl; [|apply attempts_target]. now intros t' <-.
Qed.

(* ===================================================================== *)
(** ** The row loop *)
(* ===================================================================== *)

(** What a turn of the loop does once the pacing call has returned, when
    the row is fetched and when it is skipped. *)
Lemma process_row_fetches (clock : nat -> Q) (net : nat -> nat -> net_outcome)
  (df : frame) (index : nat) (r : row) (s : loop_state)
  (evs : list event) (limiter : RateLimiter) (v : pyval) (k : string) :
  wait_if_needed (clock (reads s)) (rate_limiter s) = (evs, Ok limiter) ->
  effective_identifier df r = Some (v, k) ->
  process_row clock net df index r s
  = (evs ++ Log (MsgProcessing index (Some (v, k)))
         :: events (fetch_publisher_metadata (net index) v k),
     match outcome (fetch_publisher_metadata (net index) v k) with
     | Ok result =>
         Ok (mkLoop (S (S (reads s)))
                    (record_request (clock (S (reads s))) limiter)
                    (results s ++ [passthrough df r result]))
     | Raise e => Raise e
     end).
Proof.
  intros Hwait Heff. unfold process_row. rewrite Hwait.
  unfold effective_identifier in Heff.
  destruct (select df r) as [[v' k']|]; [|discriminate].
  destruct (py_truthy v') eqn:Hv; [|discriminate]. injection Heff as -> ->.
  unfold bind, emit, ret, events, outcome. cbn [fst snd app].
  destruct (fetch_publisher_metadata (net index) v k) as [fevs [result|e]];
    cbn; rewrite ?app_nil_r; reflexivity.
Qed.

Lemma process_row_skips (clock : nat -> Q) (net : nat -> nat -> net_outcome)
  (df : frame) (index : nat) (r : row) (s : loop_state)
  (evs : list event) (limiter : RateLimiter) :
  wait_if_needed (clock (reads s)) (rate_limiter s) = (evs, Ok limiter) ->
  effective_identifier df r = None ->
  process_row clock net df index r s
  = (evs ++ [Log (MsgProcessing index (select df r));
             Log (MsgSkipping index)],
     Ok (mkLoop (S (reads s)) limiter
                (results s ++ [passthrough df r all_null]))).
Proof.
  intros Hwait Heff. unfold process_row. rewrite Hwait.
  unfold effective_identifier in Heff.
  destruct (select df r) as [[v' k']|].
  - destruct (py_truthy v') eqn:Hv; [discriminate|]. reflexivity.
  - reflexivity.
Qed.

(** *** Records and passthrough fields *)

Lemma dict_get_set_other (d : dict) (k k' : string) (v : pyval) :
  k <> k' -> dict_get (dict_set d k v) k' = dict_get d k'.
Proof.
  intros Hk. induction d as [|[k0 v0] d IH]; simpl.
  - destruct (String.eqb_spec k k'); [contradiction | reflexivity].
  - destruct (String.eqb_spec k0 k) as [->|Hne]; simpl.
    + destruct (String.eqb_spec k k'); [contradiction | reflexivity].
    + now rewrite IH.
Qed.


Lemma all_null_fields (field : string) : dict_get all_null field = PNone.
Proof.
  unfold all_null. induction FIELDS as [|f l IH]; simpl; [reflexivity|].
  now destruct (f =? field)%string.
Qed.

(** The passthrough keys are not fixed fields, so attaching them leaves
    every fixed field as it was. *)
Lemma passthrough_keeps_fields (df : frame) (r : row) (result : dict)
  (field : string) :
  In field FIELDS ->
  dict_get (passthrough df r result) field = dict_get result field.
Proof.
  intros Hin. unfold passthrough.
  assert (H1 : "input_publisher_id" <> field).
  { intros <-. simpl in Hin.
    repeat (destruct Hin as [Hin|Hin]; [discriminate|]). exact Hin. }
  assert (H2 : "input_domain" <> field).
  { intros <-. simpl in Hin.
    repeat (destruct Hin as [Hin|Hin]; [discriminate|]). exact Hin. }
  destruct (has_domain df), (has_pub_id df);
    rewrite ?dict_get_set_other by assumption; reflexivity.
Qed.


(** *** Which identifier a row is fetched with *)

Lemma effective_identifier_cascade (df : frame) (r : row) :
  effective_identifier df r
  = if has_domain df && pd_notna (cell_val (domain r))
    then if py_truthy (cell_val (domain r))
         then Some (cell_val (domain r), "domain") else None
    else if has_pub_id df && pd_notna (cell_val (publisher_id r))
    then if py_truthy (cell_val (publisher_id r))
         then Some (cell_val (publisher_id r), "id") else None
    else None.
Proof.
  unfold effective_identifier, select, get_domain, get_publisher_id.
  destruct (has_domain df), (has_pub_id df); simpl;
    repeat match goal with
           | |- context [pd_notna ?v] => destruct (pd_notna v)
           end; reflexivity.
Qed.

(** What the loop does with the two columns: when the sheet
    has a domain column and the row's domain is not NA, the domain is
    selected and is fetched, as a domain, exactly when it is truthy; the
    publisher id is not looked at.  Only when the domain is missing or NA
    is a publisher id that is not NA selected, and fetched, as an id,
    exactly when it is truthy.  Otherwise the row has no usable
    identifier.  The requests of the row are those of the fetch of the
    identifier so determined, and none when there is none. *)
Theorem selection_priority (clock : nat -> Q)
  (net : nat -> nat -> net_outcome) (df : frame) (index : nat) (r : row)
  (s : loop_state) :
  (0 < max_requests (rate_limiter s))%Z ->
  effective_identifier df r
  = (if has_domain df && pd_notna (cell_val (domain r))
     then if py_truthy (cell_val (domain r))
          then Some (cell_val (domain r), "domain") else None
     else if has_pub_id df && pd_notna (cell_val (publisher_id r))
     then if py_truthy (cell_val (publisher_id r))
          then Some (cell_val (publisher_id r), "id") else None
     else None)
  /\ requests_of (events (process_row clock net df index r s))
     = match effective_identifier df r with
       | Some (v, k) =>
           requests_of (events (fetch_publisher_metadata (net index) v k))
       | None => []
       end
  /\ (forall v, effective_identifier df r = Some (v, "domain") ->
        Forall (eq (TDomain v))
               (requests_of (events (process_row clock net df index r s))))
  /\ (forall v, effective_identifier df r = Some (v, "id") ->
        Forall (fun t => exists n, py_int v = Ok n /\ t = TId n)
               (requests_of (events (process_row clock net df index r s)))).
Proof.
  intros Hcap.
  destruct (wait_if_needed_total (clock (reads s)) (rate_limiter s) Hcap)
    as (evs & limiter & Hwait).
  pose proof (wait_if_needed_sends_nothing (clock (reads s)) (rate_limiter s))
    as Hquiet. rewrite Hwait in Hquiet. simpl in Hquiet.
  assert (Hreq : requests_of (events (process_row clock net df index r s))
                 = match effective_identifier df r with
                   | Some (v, k) =>
                       requests_of
                         (events (fetch_publisher_metadata (net index) v k))
                   | None => []
                   end).
  { destruct (effective_identifier df r) as [[v k]|] eqn:Heff.
    - rewrite (process_row_fetches _ _ _ _ _ _ _ _ _ _ Hwait Heff).
      unfold events at 1. cbn [fst].
      now rewrite requests_of_app, Hquiet.
    - rewrite (process_row_skips _ _ _ _ _ _ _ _ Hwait Heff).
      unfold events. cbn [fst]. now rewrite requests_of_app, Hquiet. }
  split; [apply effective_identifier_cascade|].
  split; [exact Hreq|]. split.
  - intros v Heff. rewrite Hreq, Heff.
    eapply Forall_impl; [|apply fetch_targets].
    intros t Ht. unfold resolve in Ht. simpl in Ht. congruence.
  - intros v Heff. rewrite Hreq, Heff.
    eapply Forall_impl; [|apply fetch_targets].
    intros t Ht. unfold resolve in Ht. simpl in Ht.
    destruct (py_int v) as [n|[]]; try discriminate.
    exists n. split; [reflexivity | congruence].
Qed.

(** The row with domain x.com and publisher id 42: every request goes to
    the domain endpoint. *)
Lemma selection_priority_witness :
  (0 < max_requests (rate_limiter initial_state))%Z
  /\ Forall (eq (TDomain (PStr "x.com")))
       (requests_of
          (events (process_row (fun _ => 0%Q) (fun _ _ => NetError)
                     (both_columns [mkRow (CInt 42) (CStr "x.com")])
                     0 (mkRow (CInt 42) (CStr "x.com")) initial_state))).
Proof.
  split; [reflexivity|].
  apply (selection_priority (fun _ => 0%Q) (fun _ _ => NetError)
           (both_columns [mkRow (CInt 42) (CStr "x.com")])
           0 (mkRow (CInt 42) (CStr "x.com")) initial_state);
    reflexivity.
Defined.

(** C4, at rows where the code departs from it: a sheet with both
    columns and a row whose publisher id is 42 and whose domain cell
    holds the number 0, or FALSE.  By the priority rule such a domain is
    no usable identifier and the row is fetched with its id.  The loop
    takes the domain because it is not NA, finds it falsy, prints that
    the row has no valid publisher_id or domain and appends the record
    with every fixed field null: nothing is requested, whatever the
    server would answer. *)
Theorem falsy_domain_hides_publisher_id (clock : nat -> Q)
  (net : nat -> nat -> net_outcome) (index : nat) :
  (spec_effective_identifier (both_columns [mkRow (CInt 42) (CInt 0)])
                             (mkRow (CInt 42) (CInt 0))
   = Some (PInt 42, "id")
   /\ process_row clock net (both_columns [mkRow (CInt 42) (CInt 0)])
                   index (mkRow (CInt 42) (CInt 0)) initial_state
      = ([Log (MsgProcessing index (Some (PInt 0, "domain")));
          Log (MsgSkipping index)],
         Ok (mkLoop 1 (new_limiter RATE_LIMIT_COUNT RATE_LIMIT_PERIOD)
               [[("publisher_id", PNone); ("name", PNone); ("visit_enabled", PNone);
                 ("status", PNone); ("primary_supply_type", PNone);
                 ("pub_description", PNone); ("categories", PNone); ("slug", PNone);
                 ("avg_ads_to_content_ratio", PNone); ("avg_ads_in_view", PNone);
                 ("avg_ad_refresh", PNone); ("total_unique_gpids", PNone);
                 ("id_absorption_rate", PNone); ("avg_page_weight", PNone);
                 ("avg_cpu", PNone); ("total_supply_paths", PNone);
                 ("reseller_count", PNone); ("owner_domain", PNone);
                 ("updated_at", PNone)]
                ++ [("input_publisher_id", PInt 42);
                    ("input_domain", PInt 0)]])))
  /\ (spec_effective_identifier
        (both_columns [mkRow (CInt 42) (CBool false)])
        (mkRow (CInt 42) (CBool false))
      = Some (PInt 42, "id")
      /\ process_row clock net
           (both_columns [mkRow (CInt 42) (CBool false)])
           index (mkRow (CInt 42) (CBool false)) initial_state
         = ([Log (MsgProcessing index (Some (PBool false, "domain")));
             Log (MsgSkipping index)],
            Ok (mkLoop 1 (new_limiter RATE_LIMIT_COUNT RATE_LIMIT_PERIOD)
                  [[("publisher_id", PNone); ("name", PNone); ("visit_enabled", PNone);
                    ("status", PNone); ("primary_supply_type", PNone);
                    ("pub_description", PNone); ("categories", PNone); ("slug", PNone);
                    ("avg_ads_to_content_ratio", PNone); ("avg_ads_in_view", PNone);
                    ("avg_ad_refresh", PNone); ("total_unique_gpids", PNone);
                    ("id_absorption_rate", PNone); ("avg_page_weight", PNone);
                    ("avg_cpu", PNone); ("total_supply_paths", PNone);
                    ("reseller_count", PNone); ("owner_domain", PNone);
                    ("updated_at", PNone)]
                   ++ [("input_publisher_id", PInt 42);
                       ("input_domain", PBool false)]]))).
Proof. repeat split. Qed.

(** With the domain missing from the same row the id is used: the
    fall-back that the falsy domain does not get. *)
Example missing_domain_falls_back_to_id :
  effective_identifier (both_columns [mkRow (CInt 42) empty_cell])
                       (mkRow (CInt 42) empty_cell)
  = Some (PInt 42, "id").
Proof. reflexivity. Qed.

(** The record of a skipped row, written out. *)
Lemma passthrough_all_null (df : frame) (r : row) :
  passthrough df r all_null
  = [("publisher_id", PNone); ("name", PNone); ("visit_enabled", PNone);
     ("status", PNone); ("primary_supply_type", PNone);
     ("pub_description", PNone); ("categories", PNone); ("slug", PNone);
     ("avg_ads_to_content_ratio", PNone); ("avg_ads_in_view", PNone);
     ("avg_ad_refresh", PNone); ("total_unique_gpids", PNone);
     ("id_absorption_rate", PNone); ("avg_page_weight", PNone);
     ("avg_cpu", PNone); ("total_supply_paths", PNone);
     ("reseller_count", PNone); ("owner_domain", PNone);
     ("updated_at", PNone)]
    ++ (if has_pub_id df
        then [("input_publisher_id", cell_val (publisher_id r))] else [])
    ++ (if has_domain df
        then [("input_domain", cell_val (domain r))] else []).
Proof.
  unfold passthrough, get_publisher_id, get_domain.
  destruct (has_pub_id df), (has_domain df); reflexivity.
Qed.

(** The values the skip is about: an id of zero, an empty string. *)
Lemma falsy_identifiers (e : Z) :
  py_truthy (PInt 0) = false
  /\ py_truthy (PFloat (FFin 0 e)) = false
  /\ py_truthy (PStr EmptyString) = false.
Proof. repeat split. Qed.

(** C10: when the identifier selected for a row is falsy, the turn of the
    loop prints the two lines and appends the record that has every fixed
    field with the value null, followed by the passthrough fields of the
    columns the sheet has; it sends no request, reads the clock only for
    the pacing call, and leaves the limiter as the pacing call left it,
    with no timestamp recorded.  A row whose domain is the empty string
    has that domain selected, whatever its publisher id. *)
Theorem falsy_identifier_skips_row (clock : nat -> Q)
  (net : nat -> nat -> net_outcome) (df : frame) (index : nat) (r : row)
  (s : loop_state) (evs : list event) (limiter : RateLimiter)
  (v : pyval) (k : string) :
  wait_if_needed (clock (reads s)) (rate_limiter s) = (evs, Ok limiter) ->
  select df r = Some (v, k) ->
  py_truthy v = false ->
  process_row clock net df index r s
  = (evs ++ [Log (MsgProcessing index (Some (v, k)));
             Log (MsgSkipping index)],
     Ok (mkLoop (S (reads s)) limiter
           (results s
            ++ [[("publisher_id", PNone); ("name", PNone); ("visit_enabled", PNone);
                  ("status", PNone); ("primary_supply_type", PNone);
                  ("pub_description", PNone); ("categories", PNone); ("slug", PNone);
                  ("avg_ads_to_content_ratio", PNone); ("avg_ads_in_view", PNone);
                  ("avg_ad_refresh", PNone); ("total_unique_gpids", PNone);
                  ("id_absorption_rate", PNone); ("avg_page_weight", PNone);
                  ("avg_cpu", PNone); ("total_supply_paths", PNone);
                  ("reseller_count", PNone); ("owner_domain", PNone);
                  ("updated_at", PNone)]
                ++ (if has_pub_id df
                    then [("input_publisher_id", cell_val (publisher_id r))]
                    else [])
                ++ (if has_domain df
                    then [("input_domain", cell_val (domain r))]
                    else [])])))
  /\ (forall field, In field FIELDS ->
        dict_get (passthrough df r all_null) field = PNone)
  /\ requests_of (events (process_row clock net df index r s)) = []
  /\ request_timestamps limiter
     = evict (clock (reads s) - period_seconds (rate_limiter s))
             (request_timestamps (rate_limiter s))
  /\ (has_domain df = true -> domain r = CStr EmptyString ->
      (v, k) = (PStr EmptyString, "domain")).
Proof.
  intros Hwait Hsel Hfalsy.
  assert (Heff : effective_identifier df r = None).
  { unfold effective_identifier. now rewrite Hsel, Hfalsy. }
  pose proof (process_row_skips clock net df index r s evs limiter Hwait Heff)
    as Hrow. rewrite Hsel, passthrough_all_null in Hrow.
  split; [exact Hrow|]. split; [|split; [|split]].
  - intros field Hin.
    now rewrite passthrough_keeps_fields, all_null_fields.
  - rewrite Hrow. unfold events. cbn [fst].
    pose proof (wait_if_needed_sends_nothing (clock (reads s)) (rate_limiter s))
      as Hquiet. rewrite Hwait in Hquiet. simpl in Hquiet.
    now rewrite requests_of_app, Hquiet.
  - now destruct (wait_if_needed_returns _ _ _ _ Hwait) as [-> _].
  - intros Hd Hempty. unfold select, get_domain in Hsel.
    rewrite Hd, Hempty in Hsel. simpl in Hsel. congruence.
Qed.

(** The row with an empty-string domain and publisher id 42, met by a
    fresh limiter: it is skipped. *)
Lemma falsy_identifier_skips_row_witness :
  process_row (fun _ => 0%Q) (fun _ _ => NetError)
    (both_columns [mkRow (CInt 42) (CStr EmptyString)])
    0 (mkRow (CInt 42) (CStr EmptyString)) initial_state
  = ([Log (MsgProcessing 0 (Some (PStr EmptyString, "domain")));
      Log (MsgSkipping 0)],
     Ok (mkLoop 1 (new_limiter RATE_LIMIT_COUNT RATE_LIMIT_PERIOD)
           [[("publisher_id", PNone); ("name", PNone); ("visit_enabled", PNone);
             ("status", PNone); ("primary_supply_type", PNone);
             ("pub_description", PNone); ("categories", PNone); ("slug", PNone);
             ("avg_ads_to_content_ratio", PNone); ("avg_ads_in_view", PNone);
             ("avg_ad_refresh", PNone); ("total_unique_gpids", PNone);
             ("id_absorption_rate", PNone); ("avg_page_weight", PNone);
             ("avg_cpu", PNone); ("total_supply_paths", PNone);
             ("reseller_count", PNone); ("owner_domain", PNone);
             ("updated_at", PNone)]
            ++ [("input_publisher_id", PInt 42);
                ("input_domain", PStr EmptyString)]])).
Proof.
  apply (falsy_identifier_skips_row (fun _ => 0%Q) (fun _ _ => NetError)
           (both_columns [mkRow (CInt 42) (CStr EmptyString)])
           0 (mkRow (CInt 42) (CStr EmptyString)) initial_state []
           (new_limiter RATE_LIMIT_COUNT RATE_LIMIT_PERIOD)
           (PStr EmptyString) "domain"); reflexivity.
Defined.

(** *** The batch *)

(** The cap of the limiter is the same after a turn of the loop, so it
    is [RATE_LIMIT_COUNT] throughout. *)
Lemma process_row_keeps_cap (clock : nat -> Q)
  (net : nat -> nat -> net_outcome) (df : frame) (index : nat) (r : row)
  (s s' : loop_state) (evs : list event) :
  process_row clock net df index r s = (evs, Ok s') ->
  max_requests (rate_limiter s') = max_requests (rate_limiter s).
Proof.
  intros H.
  destruct (wait_if_needed (clock (reads s)) (rate_limiter s))
    as [wevs [limiter|e]] eqn:Hwait.
  - destruct (wait_if_needed_returns _ _ _ _ Hwait) as [Hl _].
    destruct (effective_identifier df r) as [[v k]|] eqn:Heff.
    + rewrite (process_row_fetches _ _ _ _ _ _ _ _ _ _ Hwait Heff) in H.
      destruct (outcome _); [|discriminate].
      injection H as _ <-. simpl. now rewrite Hl.
    + rewrite (process_row_skips _ _ _ _ _ _ _ _ Hwait Heff) in H.
      injection H as _ <-. simpl. now rewrite Hl.
  - unfold process_row in H. rewrite Hwait in H. discriminate.
Qed.

(** A turn that returns has appended one record, the row's values
    attached. *)
Lemma process_row_appends (clock : nat -> Q)
  (net : nat -> nat -> net_outcome) (df : frame) (index : nat) (r : row)
  (s s' : loop_state) (evs : list event) :
  process_row clock net df index r s = (evs, Ok s') ->
  exists result, results s' = results s ++ [passthrough df r result].
Proof.
  intros H.
  destruct (wait_if_needed (clock (reads s)) (rate_limiter s))
    as [wevs [limiter|e]] eqn:Hwait.
  - destruct (effective_identifier df r) as [[v k]|] eqn:Heff.
    + rewrite (process_row_fetches _ _ _ _ _ _ _ _ _ _ Hwait Heff) in H.
      destruct (outcome _) as [result|]; [|discriminate].
      injection H as _ <-. now exists result.
    + rewrite (process_row_skips _ _ _ _ _ _ _ _ Hwait Heff) in H.
      injection H as _ <-. now exists all_null.
  - unfold process_row in H. rewrite Hwait in H. discriminate.
Qed.

(** When the loop runs to its end it has appended one record per row, in
    the order of the rows. *)
Lemma process_rows_one_per_row (clock : nat -> Q)
  (net : nat -> nat -> net_outcome) (df : frame) (todo : list row) :
  forall (index : nat) (s s' : loop_state) (evs : list event),
    process_rows clock net df index todo s = (evs, Ok s') ->
    exists records,
      results s' = results s ++ records
      /\ Forall2 (fun r record => exists result,
                    record = passthrough df r result)
                 todo records.
Proof.
  induction todo as [|r rest IH]; intros index s s' evs H.
  - injection H as _ <-. exists []. split; [now rewrite app_nil_r | constructor].
  - cbn [process_rows] in H.
    destruct (process_row clock net df index r s) as [evs1 [s1|e]] eqn:Hrow;
      [|discriminate].
    unfold bind in H.
    destruct (process_rows clock net df (S index) rest s1)
      as [evs2 [s2|e]] eqn:Hrest; [|discriminate].
    injection H as _ <-.
    destruct (process_row_appends _ _ _ _ _ _ _ _ Hrow) as (result & Hres).
    destruct (IH _ _ _ _ Hrest) as (records & Hrecs & Hall).
    exists (passthrough df r result :: records). split.
    + now rewrite Hrecs, Hres, <- app_assoc.
    + constructor; [now exists result | exact Hall].
Qed.

(** C5, at a batch where the code departs from it: two rows, the first
    answered with a 200, the second with a 429 whose [Retry-After] is an
    HTTP date.  The [ValueError] of the second row's fetch is caught
    nowhere: the function ends with it, and the record of the first row
    is not written either. *)
Theorem batch_aborts_on_unparsable_retry_after (clock : nat -> Q) :
  outcome
    (process_excel_file clock
       (fun index =>
          match index with
          | O => always (ok_response (PDict acme))
          | _ => always (throttled (Some http_date))
          end)
       (Some (both_columns [mkRow (CInt 7) (CStr "a.com");
                            mkRow (CInt 8) (CStr "b.com")])))
  = Raise ValueError.
Proof.
  unfold process_excel_file, process_rows, process_row, wait_if_needed.
  cbn.
  destruct (Qle_bool _ _); reflexivity.
Qed.

(* ===================================================================== *)
(** ** More on the rate limiter *)
(* ===================================================================== *)

Lemma evict_length (bound : Q) (q : list Q) :
  (List.length (evict bound q) <= List.length q)%nat.
Proof.
  induction q as [|t q IH]; simpl; [lia|].
  destruct (Qle_bool t bound); simpl; lia.
Qed.

(** X1: take a limiter whose period is one that [time.sleep] takes and
    whose timestamps are not after the reading of the clock, as they are
    when they were read from the same monotonic clock.  Then the sleep
    that [wait_if_needed] asks for is within [SLEEP_LIMIT]; the call ends
    with an exception exactly when the cap is zero or negative and the
    eviction leaves the deque empty; and the exception is then the
    [IndexError] of [request_timestamps[0]], raised before anything is
    printed or slept. *)
Theorem wait_if_needed_raises_iff (now : Q) (self : RateLimiter) :
  (period_seconds self <= inject_Z SLEEP_LIMIT)%Q ->
  Forall (fun t => t <= now)%Q (request_timestamps self) ->
  (slept (events (wait_if_needed now self)) <= inject_Z SLEEP_LIMIT)%Q
  /\ (forall e, outcome (wait_if_needed now self) = Raise e ->
                wait_if_needed now self = ([], Raise IndexError))
  /\ (wait_if_needed now self = ([], Raise IndexError)
      <-> (max_requests self <= 0)%Z
          /\ evict (now - period_seconds self) (request_timestamps self) = []).
Proof.
  intros Hperiod Hpast.
  assert (Hiff : wait_if_needed now self = ([], Raise IndexError)
                 <-> (max_requests self <= 0)%Z
                     /\ evict (now - period_seconds self)
                              (request_timestamps self) = []).
  { unfold wait_if_needed.
    destruct (evict_split (now - period_seconds self) (request_timestamps self))
      as (dropped & _ & _ & Hhead).
    destruct (evict _ _) as [|oldest rest] eqn:Eq.
    - simpl. destruct (max_requests self <=? 0)%Z eqn:E.
      + apply Z.leb_le in E. split; [now split | reflexivity].
      + apply Z.leb_gt in E. split; [discriminate | intros [H _]; lia].
    - split; [|intros [_ H]; discriminate].
      destruct (_ <=? _)%Z; [|discriminate].
      set (w := (oldest - (now - period_seconds self))%Q).
      assert (Hw : (0 < w)%Q) by (unfold w; lra).
      destruct (Qle_bool w 0); simpl; [discriminate|].
      unfold bind. simpl. rewrite (time_sleep_pos w Hw). discriminate. }
  assert (Hlimit : (0 <= inject_Z SLEEP_LIMIT)%Q)
    by (unfold Qle, SLEEP_LIMIT; simpl; lia).
  assert (Hexc : forall e, outcome (wait_if_needed now self) = Raise e ->
                           wait_if_needed now self = ([], Raise IndexError)).
  { intros e He.
    destruct (Z_lt_le_dec 0 (max_requests self)) as [Hpos|Hle].
    - destruct (wait_if_needed_total now self Hpos) as (evs & l & Hw).
      rewrite Hw in He. discriminate.
    - destruct (evict (now - period_seconds self) (request_timestamps self))
        as [|oldest rest] eqn:Eq.
      + apply Hiff. now split.
      + exfalso. unfold wait_if_needed in He. rewrite Eq in He.
        destruct (evict_split (now - period_seconds self)
                              (request_timestamps self))
          as (dropped & _ & _ & Hhead). rewrite Eq in Hhead.
        destruct (_ <=? _)%Z; [|discriminate].
        set (w := (oldest - (now - period_seconds self))%Q) in *.
        assert (Hw : (0 < w)%Q) by (unfold w; lra).
        destruct (Qle_bool w 0); simpl in He; [discriminate|].
        unfold bind in He. simpl in He. rewrite (time_sleep_pos w Hw) in He.
        discriminate. }
  split; [|split; [exact Hexc | exact Hiff]].
  (* what is slept is at most the period *)
  destruct (outcome (wait_if_needed now self)) as [limiter|e] eqn:Ho.
  - assert (Hw : wait_if_needed now self
                 = (events (wait_if_needed now self), Ok limiter)).
    { destruct (wait_if_needed now self). simpl in *. congruence. }
    destruct (wait_if_needed_returns _ _ _ _ Hw)
      as (_ & [(_ & ->) | (oldest & rest & Eq & _ & Hs)]); [simpl; lra|].
    destruct (evict_split (now - period_seconds self)
                          (request_timestamps self))
      as (dropped & Hq & _ & _).
    rewrite Eq in Hq. rewrite Hq in Hpast.
    apply Forall_app in Hpast. destruct Hpast as [_ Hpast].
    inversion Hpast as [|? ? Hold _]; subst. lra.
  - rewrite (Hexc e eq_refl). simpl. exact Hlimit.
Qed.

(** A limiter made with a cap of zero raises on its first pacing call;
    the program's limiter, full, sleeps the rest of the period. *)
Lemma wait_if_needed_raises_iff_witness :
  (slept (events (wait_if_needed 100 (new_limiter 0 60)))
   <= inject_Z SLEEP_LIMIT)%Q
  /\ (forall e, outcome (wait_if_needed 100 (new_limiter 0 60)) = Raise e ->
                wait_if_needed 100 (new_limiter 0 60) = ([], Raise IndexError))
  /\ (wait_if_needed 100 (new_limiter 0 60) = ([], Raise IndexError)
      <-> (max_requests (new_limiter 0 60) <= 0)%Z
          /\ evict (100 - period_seconds (new_limiter 0 60))
                   (request_timestamps (new_limiter 0 60)) = []).
Proof.
  apply (wait_if_needed_raises_iff 100 (new_limiter 0 60)).
  - unfold Qle, SLEEP_LIMIT. simpl. lia.
  - constructor.
Defined.

(** X2: on a deque in clock order the eviction loop leaves exactly the
    timestamps that are inside the window at [now]: none that has aged
    out stays, none that is inside is dropped. *)
Theorem evict_keeps_the_window (P now : Q) (q : list Q) :
  Sorted.StronglySorted Qle q ->
  evict (now - P) q = filter (in_window P now) q.
Proof.
  induction 1 as [|t q Hq IH Ht]; [reflexivity|].
  cbn [evict filter].
  destruct (Qle_bool t (now - P)) eqn:E.
  - apply Qle_bool_iff in E.
    assert (Ew : in_window P now t = false) by (apply in_window_false; lra).
    now rewrite Ew.
  - apply Qle_bool_false in E.
    assert (Ew : in_window P now t = true) by (apply in_window_true; lra).
    rewrite Ew. f_equal. symmetry. apply forallb_filter_id.
    apply forallb_forall. intros u Hu.
    rewrite Forall_forall in Ht. specialize (Ht u Hu).
    apply in_window_true. lra.
Qed.

Lemma evict_keeps_the_window_witness :
  evict (100 - 60) [10%Q; 40%Q; 41%Q; 99%Q]
  = filter (in_window 60 100) [10%Q; 40%Q; 41%Q; 99%Q].
Proof.
  apply (evict_keeps_the_window 60 100 [10%Q; 40%Q; 41%Q; 99%Q]).
  repeat constructor; unfold Qle; simpl; lia.
Defined.

(** Out of clock order the loop stops too early: a stale timestamp
    behind a fresh one stays in the deque. *)
Example evict_needs_clock_order :
  evict (100 - 60) [99%Q; 10%Q] = [99%Q; 10%Q]
  /\ filter (in_window 60 100) [99%Q; 10%Q] = [99%Q].
Proof. split; reflexivity. Qed.

(** After a wait, what the limiter holds is inside the window and, with
    the request that may follow, within the cap. *)
Lemma wait_leaves_at_most_cap (M : Z) (P : Q) (s : run_state) (now : Q)
  (evs : list event) (limiter : RateLimiter) :
  consistent M P s ->
  (rs_clock s <= now)%Q ->
  wait_if_needed now (rs_limiter s) = (evs, Ok limiter) ->
  window_count P now (rs_recorded s)
  = List.length (request_timestamps limiter)
  /\ (Z.of_nat (List.length (request_timestamps limiter))
      + (if rs_ready s then 1 else 0) <= M)%Z.
Proof.
  intros (HM & HP & Hsorted & Hpast & (old & Hrec & Hold) & Hcount) Hnow Hwait.
  destruct (wait_if_needed_returns _ _ _ _ Hwait) as (-> & _).
  cbn [request_timestamps]. rewrite HP.
  destruct (evict_split (now - P) (request_timestamps (rs_limiter s)))
    as (dropped & Hq & Hdropped & Hhead).
  set (q := evict (now - P) (request_timestamps (rs_limiter s))) in *.
  assert (Hfresh : Forall (fun t => now - P < t)%Q q).
  { assert (Hqs : Sorted.StronglySorted Qle q).
    { apply (sorted_suffix dropped). now rewrite <- Hq. }
    destruct q as [|oldest rest]; [constructor|].
    now apply sorted_above_head. }
  assert (Hall : window_count P now (rs_recorded s) = List.length q).
  { rewrite Hrec, Hq, !window_count_app.
    rewrite (window_count_stale P now old)
      by (apply (Forall_Qle_trans old (rs_clock s - P)); [lra | exact Hold]).
    rewrite (window_count_stale P now dropped Hdropped).
    now rewrite (window_count_fresh P now q Hfresh). }
  split; [exact Hall|].
  pose proof (window_count_mono P (rs_clock s) now (rs_recorded s) Hnow).
  destruct (rs_ready s); lia.
Qed.

(** X3: in a run of a limiter with a positive cap, the deque is in clock
    order, is the tail of the history of recorded timestamps, and never
    holds more than [max_requests + 1] of them. *)
Theorem deque_stays_bounded (M : Z) (P : Q) (s : run_state) :
  (0 < M)%Z ->
  reachable M P s ->
  Sorted.StronglySorted Qle (request_timestamps (rs_limiter s))
  /\ (exists dropped,
        rs_recorded s = dropped ++ request_timestamps (rs_limiter s))
  /\ (Z.of_nat (List.length (request_timestamps (rs_limiter s))) <= M + 1)%Z.
Proof.
  intros HM Hreach.
  destruct (consistent_reachable M P s) as (_ & _ & Hs & _ & (d & Hd & _) & _);
    [lia | exact Hreach |].
  split; [exact Hs|]. split; [now exists d|].
  clear Hs d Hd.
  enough (H : (Z.of_nat (List.length (request_timestamps (rs_limiter s)))
               <= M + (if rs_ready s then 0 else 1))%Z)
    by (destruct (rs_ready s); lia).
  induction Hreach as [t0 | s s' Hreach IH Hstep]; [simpl; lia|].
  pose proof (consistent_reachable M P s (Z.lt_le_incl _ _ HM) Hreach) as Hc.
  destruct Hstep as [s now evs limiter Hnow Hwait | s now Hnow Hready].
  - cbn [rs_limiter rs_ready].
    destruct (wait_leaves_at_most_cap M P s now evs limiter Hc Hnow Hwait)
      as [_ H]. destruct (rs_ready s); lia.
  - cbn [rs_limiter rs_ready]. unfold record_request.
    cbn [request_timestamps]. rewrite length_app. simpl.
    rewrite Hready in IH. lia.
Qed.

Lemma deque_stays_bounded_witness :
  Sorted.StronglySorted Qle [0%Q]
  /\ (exists dropped, [0%Q] = dropped ++ [0%Q])
  /\ (Z.of_nat (List.length [0%Q]) <= 1 + 1)%Z.
Proof.
  apply (deque_stays_bounded 1 60
           (mkRun (mkRateLimiter 1 60 [0%Q]) 0 [0%Q] false)); [lia|].
  apply (reach_step 1 60 (mkRun (mkRateLimiter 1 60 []) 0 [] true));
    [|apply (step_record (mkRun (mkRateLimiter 1 60 []) 0 [] true) 0);
      [simpl; lra | reflexivity]].
  apply (reach_step 1 60 (start 1 60 0));
    [apply reach_start
    |apply (step_wait (start 1 60 0) 0 [] (mkRateLimiter 1 60 []));
      [simpl; lra | reflexivity]].
Defined.

(** X4: in a run, a pacing call that has to sleep sleeps a positive time
    of at most one period; and once a pacing call has returned, the window
    holds fewer than [max_requests] timestamps, so that a second pacing
    call before the request returns at once. *)
Theorem wait_blocks_at_most_a_period (M : Z) (P : Q) (s : run_state)
  (now : Q) (evs : list event) (limiter : RateLimiter) :
  (0 < M)%Z ->
  reachable M P s ->
  (rs_clock s <= now)%Q ->
  wait_if_needed now (rs_limiter s) = (evs, Ok limiter) ->
  (evs = [] \/ (0 < slept evs /\ slept evs <= P)%Q)
  /\ (rs_ready s = true ->
      evs = [] /\ (Z.of_nat (window_count P now (rs_recorded s)) < M)%Z).
Proof.
  intros HM Hreach Hnow Hwait.
  pose proof (consistent_reachable M P s (Z.lt_le_incl _ _ HM) Hreach) as Hc.
  destruct (wait_leaves_at_most_cap M P s now evs limiter Hc Hnow Hwait)
    as [Hall Hroom].
  destruct Hc as (Hmax & Hper & _ & Hpast & _ & _).
  destruct (evict_split (now - period_seconds (rs_limiter s))
                        (request_timestamps (rs_limiter s)))
    as (dropped & Hq & _ & Hhead).
  destruct (wait_if_needed_returns _ _ _ _ Hwait) as (Hl & Hcases).
  cbn zeta in Hcases. rewrite Hl in Hroom, Hall. cbn [request_timestamps] in *.
  rewrite Hmax, Hper in *.
  split.
  - destruct Hcases as [(_ & ->) | (oldest & rest & Eq & Hge & Hs)];
      [now left | right].
    rewrite Eq in Hhead, Hq.
    rewrite Hq in Hpast. apply Forall_app in Hpast. destruct Hpast as [_ Hpast].
    inversion Hpast as [|? ? Ho _]; subst. lra.
  - intros Hready. rewrite Hready in Hroom.
    destruct Hcases as [(_ & ->) | (oldest & rest & Eq & Hge & Hs)].
    + split; [reflexivity | lia].
    + exfalso. lia.
Qed.

Lemma wait_blocks_at_most_a_period_witness :
  ([Log (MsgRateLimitWait 50); Sleep 50] = []
   \/ (0 < slept [Log (MsgRateLimitWait 50); Sleep 50]
       /\ slept [Log (MsgRateLimitWait 50); Sleep 50] <= 60)%Q)
  /\ (false = true ->
      [Log (MsgRateLimitWait 50); Sleep 50] = []
      /\ (Z.of_nat (window_count 60 10 [0%Q]) < 1)%Z).
Proof.
  apply (wait_blocks_at_most_a_period 1 60
           (mkRun (mkRateLimiter 1 60 [0%Q]) 0 [0%Q] false) 10
           [Log (MsgRateLimitWait 50); Sleep 50] (mkRateLimiter 1 60 [0%Q]));
    [lia | | simpl; lra | reflexivity].
  apply (reach_step 1 60 (mkRun (mkRateLimiter 1 60 []) 0 [] true));
    [|apply (step_record (mkRun (mkRateLimiter 1 60 []) 0 [] true) 0);
      [simpl; lra | reflexivity]].
  apply (reach_step 1 60 (start 1 60 0));
    [apply reach_start
    |apply (step_wait (start 1 60 0) 0 [] (mkRateLimiter 1 60 []));
      [simpl; lra | reflexivity]].
Defined.

(** A limiter that holds fewer than [max_requests] timestamps does not
    delay the caller: nothing is printed, nothing slept. *)
Lemma wait_with_room (now : Q) (self : RateLimiter) :
  (Z.of_nat (List.length (request_timestamps self)) < max_requests self)%Z ->
  wait_if_needed now self
  = ([], Ok (mkRateLimiter (max_requests self) (period_seconds self)
               (evict (now - period_seconds self) (request_timestamps self)))).
Proof.
  intros Hroom. unfold wait_if_needed.
  pose proof (evict_length (now - period_seconds self) (request_timestamps self)).
  destruct (_ <=? _)%Z eqn:E; [|reflexivity].
  apply Z.leb_le in E. lia.
Qed.

(* ===================================================================== *)
(** ** More on the fetcher *)
(* ===================================================================== *)

(** X5: whatever the identifier, the kind and the answers of the server,
    one call sends at most [MAX_RETRIES] requests, and all of them go to
    the one target the identifier resolves to. *)
Theorem fetch_sends_at_most_three (net : nat -> net_outcome)
  (identifier : pyval) (id_type : string) :
  (List.length
     (requests_of (events (fetch_publisher_metadata net identifier id_type)))
   <= MAX_RETRIES)%nat
  /\ Forall (fun t => resolve identifier id_type = Resolved t)
       (requests_of (events (fetch_publisher_metadata net identifier id_type))).
Proof.
  split; [|apply fetch_targets].
  unfold fetch_publisher_metadata.
  destruct (resolve identifier id_type) as [t|w|e]; simpl; try lia.
  pose proof (attempts_bounded net t (seq 0 MAX_RETRIES)) as H.
  now rewrite length_seq in H.
Qed.



(** X7: three answers 429 in a row, each with a [Retry-After] that is
    absent or an integer from zero to [SLEEP_LIMIT], a length that
    [time.sleep] takes: the fetcher sleeps what each one asks (two seconds
    for an absent header), also after the third, where no attempt follows,
    and returns the record that has every fixed field with the value
    null. *)
Theorem throttled_until_exhausted (net : nat -> net_outcome)
  (identifier : pyval) (id_type : string) (t : target)
  (r : nat -> response) (n : nat -> Z) :
  resolve identifier id_type = Resolved t ->
  (forall k, (k < MAX_RETRIES)%nat ->
     net k = NetResponse (r k)
     /\ status_code (r k) = 429
     /\ py_int (retry_after_of (r k)) = Ok (n k)
     /\ (0 <= n k <= SLEEP_LIMIT)%Z) ->
  fetch_publisher_metadata net identifier id_type
  = ([Get t; Log (MsgRateLimited t (n 0%nat) 0); Sleep (inject_Z (n 0%nat));
      Get t; Log (MsgRateLimited t (n 1%nat) 1); Sleep (inject_Z (n 1%nat));
      Get t; Log (MsgRateLimited t (n 2%nat) 2); Sleep (inject_Z (n 2%nat))],
     Ok [("publisher_id", PNone); ("name", PNone); ("visit_enabled", PNone);
         ("status", PNone); ("primary_supply_type", PNone);
         ("pub_description", PNone); ("categories", PNone); ("slug", PNone);
         ("avg_ads_to_content_ratio", PNone); ("avg_ads_in_view", PNone);
         ("avg_ad_refresh", PNone); ("total_unique_gpids", PNone);
         ("id_absorption_rate", PNone); ("avg_page_weight", PNone);
         ("avg_cpu", PNone); ("total_supply_paths", PNone);
         ("reseller_count", PNone); ("owner_domain", PNone);
         ("updated_at", PNone)]).
Proof.
  intros Hres H. unfold fetch_publisher_metadata. rewrite Hres.
  destruct (H 0%nat) as (H0 & S0 & I0 & N0 & _); [unfold MAX_RETRIES; lia|].
  destruct (H 1%nat) as (H1 & S1 & I1 & N1 & _); [unfold MAX_RETRIES; lia|].
  destruct (H 2%nat) as (H2 & S2 & I2 & N2 & _); [unfold MAX_RETRIES; lia|].
  cbn [seq MAX_RETRIES attempts].
  rewrite (attempt_429 net t 0 (r 0%nat) (n 0%nat) H0 S0 I0 N0).
  rewrite (attempt_429 net t 1 (r 1%nat) (n 1%nat) H1 S1 I1 N1).
  rewrite (attempt_429 net t 2 (r 2%nat) (n 2%nat) H2 S2 I2 N2).
  reflexivity.
Qed.

Lemma throttled_until_exhausted_witness :
  fetch_publisher_metadata
    (fun k => NetResponse (throttled (if (k =? 1)%nat then Some "5" else None)))
    (PInt 7) "id"
  = ([Get (TId 7); Log (MsgRateLimited (TId 7) 2 0); Sleep 2;
      Get (TId 7); Log (MsgRateLimited (TId 7) 5 1); Sleep 5;
      Get (TId 7); Log (MsgRateLimited (TId 7) 2 2); Sleep 2],
     Ok [("publisher_id", PNone); ("name", PNone); ("visit_enabled", PNone);
         ("status", PNone); ("primary_supply_type", PNone);
         ("pub_description", PNone); ("categories", PNone); ("slug", PNone);
         ("avg_ads_to_content_ratio", PNone); ("avg_ads_in_view", PNone);
         ("avg_ad_refresh", PNone); ("total_unique_gpids", PNone);
         ("id_absorption_rate", PNone); ("avg_page_weight", PNone);
         ("avg_cpu", PNone); ("total_supply_paths", PNone);
         ("reseller_count", PNone); ("owner_domain", PNone);
         ("updated_at", PNone)]).
Proof.
  apply (throttled_until_exhausted
           (fun k => NetResponse
                       (throttled (if (k =? 1)%nat then Some "5" else None)))
           (PInt 7) "id" (TId 7)
           (fun k => throttled (if (k =? 1)%nat then Some "5" else None))
           (fun k => if (k =? 1)%nat then 5 else 2));
    [reflexivity|].
  intros k Hk. unfold MAX_RETRIES in Hk.
  destruct k as [|[|[|k]]]; try lia; repeat split;
    unfold SLEEP_LIMIT; simpl; lia.
Defined.



(** *** The shape of a record *)

Lemma dict_set_keys_old (d : dict) (k : string) (v : pyval) :
  In k (map fst d) -> map fst (dict_set d k v) = map fst d.
Proof.
  induction d as [|[k0 v0] d IH]; simpl; [contradiction|].
  intros [->|Hin].
  - now rewrite String.eqb_refl.
  - destruct (k0 =? k)%string; simpl; [reflexivity | now rewrite IH].
Qed.

Lemma dict_set_keys_new (d : dict) (k : string) (v : pyval) :
  ~ In k (map fst d) -> map fst (dict_set d k v) = map fst d ++ [k].
Proof.
  induction d as [|[k0 v0] d IH]; simpl; [reflexivity|].
  intros Hn. destruct (String.eqb_spec k0 k) as [->|Hne].
  - exfalso. apply Hn. now left.
  - simpl. rewrite IH; [reflexivity|]. intros Hin. apply Hn. now right.
Qed.

Lemma project_keys (data : pyval) (result : dict) :
  project data = Ok result -> map fst result = FIELDS.
Proof.
  destruct data; try discriminate. intros [= <-]. reflexivity.
Qed.

Lemma join_categories_keys (result result' : dict) :
  In "categories" (map fst result) ->
  join_categories result = Ok result' -> map fst result' = map fst result.
Proof.
  intros Hin. unfold join_categories.
  destruct (dict_get result "categories"); try (now intros [= <-]).
  destruct (py_join "; " l); [|discriminate].
  intros [= <-]. now apply dict_set_keys_old.
Qed.

Lemma attempt_once_keys (net : nat -> net_outcome) (t : target)
  (attempt : nat) (evs : list event) (result : dict) :
  attempt_once net t attempt = (evs, Ok (Some result)) ->
  map fst result = FIELDS.
Proof.
  unfold attempt_once, attempt_body, time_sleep.
  destruct (net attempt) as [|r].
  - simpl. destruct (attempt <? 2)%nat; simpl; intros [= _ <-]; reflexivity.
  - destruct (status_code r =? 200)%Z.
    + destruct (json r) as [body|e].
      * rewrite bind_lift_ok.
        assert (Hgen : forall data,
                   catch (emit (Get t) ;;;
                          (result <- lift (project data) ;;
                           result <- lift (join_categories result) ;;
                           ret (Some result)))
                         RequestException
                         (emit (Log (MsgError t)) ;;;
                          (if (attempt <? MAX_RETRIES - 1)%nat
                           then emit (Log (MsgRetrying attempt)) ;;;
                                (if Qle_bool 0 (inject_Z DEFAULT_RETRY_DELAY)
                                 then emit (Sleep (inject_Z DEFAULT_RETRY_DELAY))
                                 else raise ValueError) ;;;
                                ret None
                           else emit (Log (MsgGaveUp t)) ;;;
                                ret (Some all_null)))
                   = (evs, Ok (Some result)) ->
                   map fst result = FIELDS).
        { intros data. rewrite project_join_run.
          destruct (project data) as [projected|e] eqn:Ep.
          - pose proof (project_keys data projected Ep) as Hk.
            destruct (join_categories projected) as [joined|e] eqn:Ej.
            + intros [= _ <-].
              rewrite (join_categories_keys projected joined); [exact Hk| |exact Ej].
              rewrite Hk. simpl. tauto.
            + destruct e; simpl; try discriminate.
              destruct (attempt <? 2)%nat; simpl; intros [= _ <-]; reflexivity.
          - destruct e; simpl; try discriminate.
            destruct (attempt <? 2)%nat; simpl; intros [= _ <-]; reflexivity. }
        destruct body as [| | | | |[|x l]|]; try apply Hgen.
        simpl. intros [= _ <-]. reflexivity.
      * destruct e; simpl; try discriminate.
        destruct (attempt <? 2)%nat; simpl; intros [= _ <-]; reflexivity.
    + destruct (status_code r =? 429)%Z.
      * destruct (py_int _) as [n|e].
        -- rewrite bind_lift_ok. unfold bind, emit, catch.
           destruct (Qle_bool 0 (inject_Z n)); simpl; discriminate.
        -- destruct e; simpl; try discriminate.
           destruct (attempt <? 2)%nat; simpl; intros [= _ <-]; reflexivity.
      * simpl. intros [= _ <-]. reflexivity.
Qed.

Lemma attempts_keys (net : nat -> net_outcome) (t : target)
  (todo : list nat) (evs : list event) (result : dict) :
  attempts net t todo = (evs, Ok result) -> map fst result = FIELDS.
Proof.
  revert evs. induction todo as [|attempt rest IH]; intros evs.
  - intros [= _ <-]. reflexivity.
  - cbn [attempts].
    destruct (attempt_once net t attempt) as [evs1 [[r1|]|e]] eqn:E;
      unfold bind; simpl.
    + intros [= _ <-]. exact (attempt_once_keys _ _ _ _ _ E).
    + destruct (attempts net t rest) as [evs2 [r2|e]] eqn:E2;
        [|discriminate].
      intros [= _ <-]. exact (IH _ eq_refl).
    + discriminate.
Qed.

(** X9: a record that the fetch returns is never partial: it has every
    fixed field, once, in the order of [FIELDS], whether it comes from a
    response or is the all-null record. *)
Theorem fetch_returns_every_field (net : nat -> net_outcome)
  (identifier : pyval) (id_type : string) (evs : list event) (result : dict) :
  fetch_publisher_metadata net identifier id_type = (evs, Ok result) ->
  map fst result = FIELDS.
Proof.
  unfold fetch_publisher_metadata.
  destruct (resolve identifier id_type) as [t|w|e].
  - apply attempts_keys.
  - intros [= _ <-]. reflexivity.
  - discriminate.
Qed.

Lemma fetch_returns_every_field_witness :
  map fst (spec_record [("name", PStr "Acme"); ("extra", PInt 1)]) = FIELDS.
Proof.
  apply (fetch_returns_every_field
           (always (ok_response (PDict [("name", PStr "Acme");
                                        ("extra", PInt 1)])))
           (PInt 7) "id" [Get (TId 7)]
           (spec_record [("name", PStr "Acme"); ("extra", PInt 1)])).
  reflexivity.
Defined.

(** *** A success after a retry *)

Lemma attempt_200_object (net : nat -> net_outcome) (t : target)
  (attempt : nat) (r : response) (body : pyval) (d : dict) :
  net attempt = NetResponse r ->
  status_code r = 200 ->
  json r = Ok body ->
  body_object body = Some d ->
  categories_typed d = true ->
  attempt_once net t attempt = ([Get t], Ok (Some (spec_record d))).
Proof.
  intros Hnet Hs Hj Hd Hc. pose proof (project_then_join d Hc) as Hp.
  unfold attempt_once, attempt_body.
  rewrite Hnet, Hs, Hj, Z.eqb_refl, bind_lift_ok.
  destruct body as [| | | | |[|[| | | | | |d'] l]|d']; try discriminate;
    injection Hd as ->; cbn iota zeta;
    rewrite project_join_run, Hp; reflexivity.
Qed.

(** X10: an attempt that ends without a return (a 429, or a transport
    failure with attempts left) does not lose the request: when the next
    attempt is answered 200 with an object, the record of that object is
    returned, after the events of the first attempt and one more request,
    and the attempts after it are not made. *)
Theorem success_after_retry (net : nat -> net_outcome) (t : target)
  (first next : nat) (rest : list nat) (evs : list event)
  (r : response) (body : pyval) (d : dict) :
  attempt_once net t first = (evs, Ok None) ->
  net next = NetResponse r ->
  status_code r = 200 ->
  json r = Ok body ->
  body_object body = Some d ->
  categories_typed d = true ->
  attempts net t (first :: next :: rest)
  = (evs ++ [Get t], Ok (spec_record d)).
Proof.
  intros Hfirst Hnet Hs Hj Hd Hc. cbn [attempts].
  rewrite Hfirst, (attempt_200_object net t next r body d Hnet Hs Hj Hd Hc).
  reflexivity.
Qed.

Lemma success_after_retry_witness :
  attempts (fun k => match k with
                     | O => NetError
                     | _ => NetResponse (ok_response (PDict acme))
                     end)
           (TId 7) [0%nat; 1%nat; 2%nat]
  = ([Get (TId 7); Log (MsgError (TId 7)); Log (MsgRetrying 0); Sleep 2]
     ++ [Get (TId 7)],
     Ok (spec_record acme)).
Proof.
  apply (success_after_retry
           (fun k => match k with
                     | O => NetError
                     | _ => NetResponse (ok_response (PDict acme))
                     end)
           (TId 7) 0 1 [2%nat]
           [Get (TId 7); Log (MsgError (TId 7)); Log (MsgRetrying 0); Sleep 2]
           (ok_response (PDict acme)) (PDict acme) acme);
    reflexivity.
Defined.

(* ===================================================================== *)
(** ** More on the batch *)
(* ===================================================================== *)

Lemma passthrough_keys_of (df : frame) (r : row) (result : dict) :
  map fst result = FIELDS ->
  map fst (passthrough df r result) = FIELDS ++ passthrough_keys df.
Proof.
  intros Hk. unfold passthrough, passthrough_keys.
  assert (K1 : forall v,
             map fst (dict_set result "input_publisher_id" v)
             = FIELDS ++ ["input_publisher_id"]).
  { intros v. rewrite dict_set_keys_new, Hk; [reflexivity|].
    rewrite Hk. simpl. intuition discriminate. }
  destruct (has_pub_id df), (has_domain df); cbn [app].
  - rewrite dict_set_keys_new, K1, <- app_assoc; [reflexivity|].
    rewrite K1. simpl. intuition discriminate.
  - apply K1.
  - rewrite dict_set_keys_new, Hk; [reflexivity|].
    rewrite Hk. simpl. intuition discriminate.
  - now rewrite app_nil_r.
Qed.

(** What a turn of the loop that returns has appended. *)
Lemma process_row_record (clock : nat -> Q)
  (net : nat -> nat -> net_outcome) (df : frame) (index : nat) (r : row)
  (s s' : loop_state) (evs : list event) :
  process_row clock net df index r s = (evs, Ok s') ->
  exists result,
    results s' = results s ++ [passthrough df r result]
    /\ map fst result = FIELDS
    /\ (effective_identifier df r = None -> result = all_null).
Proof.
  intros H.
  destruct (wait_if_needed (clock (reads s)) (rate_limiter s))
    as [wevs [limiter|e]] eqn:Hwait.
  - destruct (effective_identifier df r) as [[v k]|] eqn:Heff.
    + rewrite (process_row_fetches _ _ _ _ _ _ _ _ _ _ Hwait Heff) in H.
      destruct (fetch_publisher_metadata (net index) v k)
        as [fevs [result|e]] eqn:Hf; [|discriminate].
      injection H as _ <-. exists result. cbn [results].
      split; [reflexivity|]. split; [|discriminate].
      unfold fetch_publisher_metadata in Hf.
      destruct (resolve v k) as [t|w|e]; [| |discriminate].
      * exact (attempts_keys _ _ _ _ _ Hf).
      * now injection Hf as _ <-.
    + rewrite (process_row_skips _ _ _ _ _ _ _ _ Hwait Heff) in H.
      injection H as _ <-. exists all_null. now repeat split.
  - unfold process_row in H. rewrite Hwait in H. discriminate.
Qed.

Lemma process_rows_records (clock : nat -> Q)
  (net : nat -> nat -> net_outcome) (df : frame) (todo : list row) :
  forall (index : nat) (s s' : loop_state) (evs : list event),
    process_rows clock net df index todo s = (evs, Ok s') ->
    exists records,
      results s' = results s ++ records
      /\ Forall2 (fun r record =>
                    exists result,
                      record = passthrough df r result
                      /\ map fst result = FIELDS
                      /\ (effective_identifier df r = None ->
                          result = all_null))
                 todo records.
Proof.
  induction todo as [|r rest IH]; intros index s s' evs H.
  - injection H as _ <-. exists []. split; [now rewrite app_nil_r | constructor].
  - cbn [process_rows] in H.
    destruct (process_row clock net df index r s) as [evs1 [s1|e]] eqn:Hrow;
      [|discriminate].
    unfold bind in H.
    destruct (process_rows clock net df (S index) rest s1)
      as [evs2 [s2|e]] eqn:Hrest; [|discriminate].
    injection H as _ <-.
    destruct (process_row_record _ _ _ _ _ _ _ _ Hrow)
      as (result & Hres & Hk & Hnull).
    destruct (IH _ _ _ _ Hrest) as (records & Hrecs & Hall).
    exists (passthrough df r result :: records). split.
    + now rewrite Hrecs, Hres, <- app_assoc.
    + constructor; [now exists result | exact Hall].
Qed.

Lemma process_excel_file_rows (clock : nat -> Q)
  (net : nat -> nat -> net_outcome) (df : frame) (evs : list event)
  (table : list dict) :
  process_excel_file clock net (Some df) = (evs, Ok (Some table)) ->
  exists evs' s',
    process_rows clock net df 0 (rows df) initial_state = (evs', Ok s')
    /\ table = results s'.
Proof.
  unfold process_excel_file. cbn [bind emit fst snd].
  destruct (negb (has_pub_id df) && negb (has_domain df)); [discriminate|].
  destruct (process_rows clock net df 0 (rows df) initial_state)
    as [evs' [s'|e]]; [|discriminate].
  simpl. intros [= _ <-]. now exists evs', s'.
Qed.



(** X12: the table is rectangular: every record of it has the same keys
    in the same order, the fixed fields followed by the passthrough key of
    each column that the sheet has, whichever rows failed. *)
Theorem table_is_rectangular (clock : nat -> Q)
  (net : nat -> nat -> net_outcome) (df : frame) (evs : list event)
  (table : list dict) :
  process_excel_file clock net (Some df) = (evs, Ok (Some table)) ->
  Forall (fun record => map fst record = FIELDS ++ passthrough_keys df) table.
Proof.
  intros H.
  destruct (process_excel_file_rows _ _ _ _ _ H) as (evs' & s' & Hrows & ->).
  destruct (process_rows_records _ _ _ _ _ _ _ _ Hrows) as (records & Hres & Hall).
  simpl in Hres. rewrite Hres. clear Hres Hrows H.
  induction Hall as [|r record todo records (result & -> & Hk & _) _ IH];
    constructor; [|exact IH].
  now apply passthrough_keys_of.
Qed.

Lemma table_is_rectangular_witness :
  Forall (fun record =>
            map fst record = FIELDS ++ ["input_publisher_id"; "input_domain"])
         [passthrough (both_columns [mkRow (CInt 7) (CStr "a.com")])
                      (mkRow (CInt 7) (CStr "a.com")) (spec_record acme)].
Proof.
  eapply (table_is_rectangular (fun _ => 0%Q)
            (fun _ => always (ok_response (PDict acme)))
            (both_columns [mkRow (CInt 7) (CStr "a.com")])).
  reflexivity.
Defined.

(** *** When the batch completes *)

Section Completion.

Variable clock : nat -> Q.
Variable net : nat -> nat -> net_outcome.
Variable df : frame.
Variable Good : dict -> Prop.

Lemma process_rows_complete (todo : list row) :
  forall (index : nat) (s : loop_state),
    (0 < max_requests (rate_limiter s))%Z ->
    (forall j r v k,
        nth_error todo j = Some r ->
        effective_identifier df r = Some (v, k) ->
        exists fevs result,
          fetch_publisher_metadata (net (index + j)) v k = (fevs, Ok result)
          /\ Good result) ->
    exists evs s',
      process_rows clock net df index todo s = (evs, Ok s')
      /\ exists records,
           results s' = results s ++ records
           /\ Forall2 (fun r record =>
                         exists result,
                           record = passthrough df r result
                           /\ (Good result \/ result = all_null))
                      todo records.
Proof.
  induction todo as [|r rest IH]; intros index s Hcap Hfetch.
  - exists [], s. split; [reflexivity|]. exists [].
    split; [now rewrite app_nil_r | constructor].
  - destruct (wait_if_needed_total (clock (reads s)) (rate_limiter s) Hcap)
      as (wevs & limiter & Hwait).
    destruct (wait_if_needed_returns _ _ _ _ Hwait) as [Hl _].
    assert (Hrow : exists evs1 s1 result,
               process_row clock net df index r s = (evs1, Ok s1)
               /\ max_requests (rate_limiter s1) = max_requests (rate_limiter s)
               /\ results s1 = results s ++ [passthrough df r result]
               /\ (Good result \/ result = all_null)).
    { destruct (effective_identifier df r) as [[v k]|] eqn:Heff.
      - destruct (Hfetch 0%nat r v k eq_refl Heff) as (fevs & result & Hf & Hg).
        rewrite Nat.add_0_r in Hf.
        rewrite (process_row_fetches _ _ _ _ _ _ _ _ _ _ Hwait Heff), Hf.
        do 3 eexists. split; [reflexivity|]. cbn.
        repeat split; [now rewrite Hl | now left].
      - rewrite (process_row_skips _ _ _ _ _ _ _ _ Hwait Heff).
        do 3 eexists. split; [reflexivity|]. cbn.
        repeat split; [now rewrite Hl | now right]. }
    destruct Hrow as (evs1 & s1 & result & Hrow & Hcap1 & Hres1 & Hg).
    destruct (IH (S index) s1) as (evs2 & s2 & Hrest & records & Hres2 & Hall).
    + now rewrite Hcap1.
    + intros j r' v k Hj Heff.
      destruct (Hfetch (S j) r' v k Hj Heff) as (fevs & res & Hf & Hgood).
      rewrite Nat.add_succ_r in Hf. now exists fevs, res.
    + exists (evs1 ++ evs2), s2. split.
      * cbn [process_rows]. rewrite Hrow. unfold bind. now rewrite Hrest.
      * exists (passthrough df r result :: records). split.
        -- now rewrite Hres2, Hres1, <- app_assoc.
        -- constructor; [now exists result | exact Hall].
Qed.

End Completion.

(** X13: the only way a batch aborts is a fetch that raises: for a sheet
    with at least one of the two columns, when the fetch of every row that
    has a usable identifier returns, the run reaches the writing of the
    table, with as many records as the sheet has rows. *)
Theorem batch_completes (clock : nat -> Q)
  (net : nat -> nat -> net_outcome) (df : frame) :
  has_pub_id df || has_domain df = true ->
  (forall i r v k,
      nth_error (rows df) i = Some r ->
      effective_identifier df r = Some (v, k) ->
      exists fevs result,
        fetch_publisher_metadata (net i) v k = (fevs, Ok result)) ->
  exists evs table,
    process_excel_file clock net (Some df) = (evs, Ok (Some table))
    /\ List.length table = List.length (rows df).
Proof.
  intros Hcols Hfetch.
  destruct (process_rows_complete clock net df (fun _ => True) (rows df)
              0%nat initial_state)
    as (evs & s' & Hrows & records & Hres & Hall).
  - reflexivity.
  - intros j r v k Hj Heff.
    destruct (Hfetch j r v k Hj Heff) as (fevs & result & Hf).
    now exists fevs, result.
  - unfold process_excel_file. cbn [bind emit fst snd].
    assert (Hc : negb (has_pub_id df) && negb (has_domain df) = false)
      by (destruct (has_pub_id df), (has_domain df); simpl in *; congruence).
    rewrite Hc, Hrows. simpl. do 2 eexists. split; [reflexivity|].
    simpl in Hres. rewrite Hres. symmetry. exact (Forall2_length Hall).
Qed.

Lemma batch_completes_witness :
  exists evs table,
    process_excel_file (fun _ => 0%Q) (fun _ _ => NetError) (Some three_rows)
    = (evs, Ok (Some table))
    /\ List.length table = List.length (rows three_rows).
Proof.
  apply (batch_completes (fun _ => 0%Q) (fun _ _ => NetError) three_rows);
    [reflexivity|].
  intros i r v k Hi Heff.
  destruct i as [|[|[|i]]]; simpl in Hi; try (destruct i; discriminate);
    injection Hi as <-; vm_compute in Heff; try discriminate;
    injection Heff as <- <-; do 2 eexists; reflexivity.
Defined.





(** *** Small batches *)

Lemma rate_waits_app (l1 l2 : list event) :
  rate_waits (l1 ++ l2) = rate_waits l1 ++ rate_waits l2.
Proof.
  induction l1 as [|ev l1 IH]; [reflexivity|].
  destruct ev as [[]| |]; simpl; now rewrite ?IH.
Qed.

Lemma attempt_once_announces_no_wait (net : nat -> net_outcome) (t : target)
  (attempt : nat) :
  rate_waits (events (attempt_once net t attempt)) = [].
Proof.
  unfold attempt_once, attempt_body, time_sleep.
  destruct (net attempt) as [|r].
  - destruct (attempt <? MAX_RETRIES - 1)%nat; reflexivity.
  - destruct (status_code r =? 200)%Z.
    + destruct (json r) as [body|e].
      * rewrite bind_lift_ok.
        destruct body as [| | | | |[|x l]|]; try reflexivity.
        all: rewrite project_join_run.
        all: match goal with
             | |- context [match ?x with Ok _ => _ | Raise _ => _ end] =>
                 destruct x as [?|[]]
             end; try reflexivity.
        all: destruct (attempt <? MAX_RETRIES - 1)%nat; reflexivity.
      * destruct e; try reflexivity.
        destruct (attempt <? MAX_RETRIES - 1)%nat; reflexivity.
    + destruct (status_code r =? 429)%Z; [|reflexivity].
      destruct (py_int _) as [n|e].
      * rewrite bind_lift_ok. unfold bind, emit, catch.
        destruct (Qle_bool 0 (inject_Z n)); reflexivity.
      * destruct e; try reflexivity.
        destruct (attempt <? MAX_RETRIES - 1)%nat; reflexivity.
Qed.

Lemma resolve_warning (identifier : pyval) (id_type : string)
  (warning : message) :
  resolve identifier id_type = Skipped warning ->
  warning = MsgInvalidId identifier \/ warning = MsgInvalidType id_type.
Proof.
  unfold resolve. destruct (id_type =? "id")%string.
  - destruct (py_int identifier) as [n|[]]; try discriminate;
      intros [= <-]; now left.
  - destruct (id_type =? "domain")%string; [discriminate|].
    intros [= <-]. now right.
Qed.

Lemma fetch_announces_no_wait (net : nat -> net_outcome) (identifier : pyval)
  (id_type : string) :
  rate_waits (events (fetch_publisher_metadata net identifier id_type)) = [].
Proof.
  unfold fetch_publisher_metadata.
  destruct (resolve identifier id_type) as [t|w|e] eqn:Hres; try reflexivity.
  - induction (seq 0 MAX_RETRIES) as [|attempt rest IH]; [reflexivity|].
    cbn [attempts].
    pose proof (attempt_once_announces_no_wait net t attempt) as H1.
    destruct (attempt_once net t attempt) as [evs [[result|]|e]] eqn:E;
      unfold bind; simpl in *.
    + now rewrite app_nil_r.
    + destruct (attempts net t rest) as [evs' r'] eqn:E'. simpl in *.
      now rewrite rate_waits_app, H1, IH.
    + exact H1.
  - now destruct (resolve_warning _ _ _ Hres) as [-> | ->].
Qed.

Lemma small_batch_is_not_paced (clock : nat -> Q)
  (net : nat -> nat -> net_outcome) (df : frame) (todo : list row) :
  forall (index : nat) (s : loop_state),
    max_requests (rate_limiter s) = RATE_LIMIT_COUNT ->
    (Z.of_nat (List.length (request_timestamps (rate_limiter s)))
     + Z.of_nat (List.length todo) <= RATE_LIMIT_COUNT)%Z ->
    rate_waits (events (process_rows clock net df index todo s)) = [].
Proof.
  induction todo as [|r rest IH]; intros index s Hcap Hroom; [reflexivity|].
  cbn [process_rows].
  assert (Hwait := wait_with_room (clock (reads s)) (rate_limiter s)).
  rewrite Hcap in Hwait. cbn [List.length] in Hroom.
  specialize (Hwait ltac:(lia)).
  set (limiter := mkRateLimiter RATE_LIMIT_COUNT
                    (period_seconds (rate_limiter s))
                    (evict (clock (reads s) - period_seconds (rate_limiter s))
                           (request_timestamps (rate_limiter s)))) in *.
  pose proof (evict_length (clock (reads s) - period_seconds (rate_limiter s))
                           (request_timestamps (rate_limiter s))) as Hev.
  destruct (effective_identifier df r) as [[v k]|] eqn:Heff.
  - rewrite (process_row_fetches _ _ _ _ _ _ _ _ _ _ Hwait Heff).
    pose proof (fetch_announces_no_wait (net index) v k) as Hf.
    destruct (fetch_publisher_metadata (net index) v k) as [fevs [result|e]];
      cbn [events outcome fst snd app] in *.
    + unfold bind.
      match goal with
      | |- context [process_rows clock net df (S index) rest ?s1] =>
          specialize (IH (S index) s1);
          destruct (process_rows clock net df (S index) rest s1) as [evs' r']
      end.
      cbn [fst events] in *. rewrite rate_waits_app. simpl. rewrite Hf.
      apply IH; [reflexivity|].
      cbn [rate_limiter record_request request_timestamps limiter].
      rewrite length_app. simpl. lia.
    + unfold bind. simpl. exact Hf.
  - rewrite (process_row_skips _ _ _ _ _ _ _ _ Hwait Heff).
    unfold bind.
    match goal with
    | |- context [process_rows clock net df (S index) rest ?s1] =>
        specialize (IH (S index) s1);
        destruct (process_rows clock net df (S index) rest s1) as [evs' r']
    end.
    cbn [fst events] in *. rewrite rate_waits_app. simpl.
    apply IH; [reflexivity|].
    cbn [rate_limiter request_timestamps limiter]. lia.
Qed.

(** X15: a sheet of at most [RATE_LIMIT_COUNT] rows is never held back
    by the limiter: in the whole run, to its end or to the exception that
    aborts it, no rate-limit wait is announced. *)
Theorem small_batch_never_waits (clock : nat -> Q)
  (net : nat -> nat -> net_outcome) (df : frame) :
  (Z.of_nat (List.length (rows df)) <= RATE_LIMIT_COUNT)%Z ->
  rate_waits (events (process_excel_file clock net (Some df))) = [].
Proof.
  intros Hsmall. unfold process_excel_file. cbn [bind emit fst snd].
  destruct (negb (has_pub_id df) && negb (has_domain df)); [reflexivity|].
  pose proof (small_batch_is_not_paced clock net df (rows df) 0%nat
                initial_state eq_refl) as H.
  destruct (process_rows clock net df 0 (rows df) initial_state)
    as [evs [s'|e]]; simpl in *; rewrite ?app_nil_r; apply H; lia.
Qed.

Lemma small_batch_never_waits_witness :
  rate_waits (events (process_excel_file (fun _ => 0%Q) (fun _ _ => NetError)
                        (Some three_rows))) = [].
Proof.
  apply (small_batch_never_waits (fun _ => 0%Q) (fun _ _ => NetError)
           three_rows).
  simpl. unfold RATE_LIMIT_COUNT. lia.
Defined.

(* ===================================================================== *)
(** ** The name of the output file *)
(* ===================================================================== *)

Lemma append_length (s1 s2 : string) :
  String.length (String.append s1 s2)
  = (String.length s1 + String.length s2)%nat.
Proof. induction s1 as [|a s1 IH]; simpl; [reflexivity | now rewrite IH]. Qed.

Lemma append_cancel (s x y : string) :
  String.append s x = String.append s y -> x = y.
Proof.
  induction s as [|a s IH]; simpl; [trivial|]. intros [= H]. now apply IH.
Qed.

Lemma rsplit_once_none (c : ascii) (s : string) :
  rsplit_once c s = None <-> str_contains c s = false.
Proof.
  induction s as [|a s IH]; simpl; [tauto|].
  destruct (rsplit_once c s) as [[b x]|].
  - split; [discriminate|]. intros H. apply orb_false_elim in H.
    destruct H as [_ H]. apply IH in H. discriminate.
  - destruct (Ascii.eqb a c); simpl; [split; discriminate|].
    split; [intros _; now apply IH | reflexivity].
Qed.

(** The two parts put back together give the name, and the part after
    the split has no separator left. *)
Lemma rsplit_once_some (c : ascii) (s before after : string) :
  rsplit_once c s = Some (before, after) ->
  s = String.append before (String c after) /\ str_contains c after = false.
Proof.
  revert before. induction s as [|a s IH]; intros before; simpl; [discriminate|].
  destruct (rsplit_once c s) as [[b x]|] eqn:E.
  - intros [= <- <-]. destruct (IH b eq_refl) as [-> Hx]. now split.
  - destruct (Ascii.eqb_spec a c) as [->|Hne]; [|discriminate].
    intros [= <- <-]. split; [reflexivity | now apply rsplit_once_none].
Qed.

Lemma rsplit_once_last (c : ascii) (before after : string) :
  str_contains c after = false ->
  rsplit_once c (String.append before (String c after)) = Some (before, after).
Proof.
  intros Hafter. apply rsplit_once_none in Hafter.
  induction before as [|a before IH]; simpl.
  - now rewrite Hafter, Ascii.eqb_refl.
  - now rewrite IH.
Qed.

Lemma str_contains_append (c : ascii) (before after : string) :
  str_contains c (String.append before (String c after)) = true.
Proof.
  induction before as [|a before IH]; simpl.
  - now rewrite Ascii.eqb_refl.
  - rewrite IH. apply orb_true_r.
Qed.

(** X16: the output name replaces the last extension only: for a name
    [base.ext] whose [ext] has no dot it is [base_results.xlsx], whatever
    dots [base] has; for a name with no dot at all the suffix is appended
    to the whole name. *)
Theorem output_file_replaces_last_extension (base ext : string) :
  str_contains "."%char ext = false ->
  output_file (String.append base (String "."%char ext))
  = String.append base "_results.xlsx"
  /\ output_file ext = String.append ext "_results.xlsx".
Proof.
  intros Hext. unfold output_file, py_rsplit1. split.
  - now rewrite str_contains_append, (rsplit_once_last _ base ext Hext).
  - now rewrite Hext.
Qed.

Lemma output_file_replaces_last_extension_witness :
  output_file "data/run.2024.xlsx" = "data/run.2024_results.xlsx"
  /\ output_file "xlsx" = "xlsx_results.xlsx".
Proof.
  apply (output_file_replaces_last_extension "data/run.2024" "xlsx").
  reflexivity.
Defined.

(** A dot in a directory name counts as the start of the extension: the
    results of [./data] go to [_results.xlsx]. *)
Example output_file_dot_in_directory :
  output_file "./data" = "_results.xlsx"
  /\ output_file "v1.2/sheet" = "v1_results.xlsx".
Proof. split; reflexivity. Qed.

(** X17: the output name is never the input name, so the results are
    never written over the sheet that was read; it always ends in
    [_results.xlsx]. *)
Theorem output_file_is_not_the_input (input_file : string) :
  output_file input_file <> input_file
  /\ exists base_name,
       output_file input_file = String.append base_name "_results.xlsx".
Proof.
  unfold output_file, py_rsplit1.
  destruct (str_contains "."%char input_file) eqn:Hdot.
  - destruct (rsplit_once "."%char input_file) as [[before after]|] eqn:E.
    + destruct (rsplit_once_some _ _ _ _ E) as [-> _]. cbn [nth]. split.
      * intros H. apply append_cancel in H. discriminate.
      * now exists before.
    + apply rsplit_once_none in E. congruence.
  - split; [|now exists input_file].
    intros H. apply (f_equal String.length) in H.
    rewrite append_length in H. simpl in H. lia.
Qed.
